(** * ros2_ouster: message conversions (conversions.hpp)

    A shallow embedding of the conversion routines of
    [ros2_ouster/conversions.hpp] and the properties of their outputs.

    Conventions of the embedding:
    - fixed-width unsigned integers are [Z] values reduced modulo 2^32
      ([u32]) or 2^64 ([u64], the width of [std::size_t]); an [int] loop
      counter is converted to unsigned in every expression that uses it (the
      comparison with the bound and the index arithmetic) and is carried as
      that unsigned value, its increment wrapping in two's complement;
    - [double] and [float] are IEEE 754 binary64 and binary32 values of
      [SpecFloat], rounding to nearest even;
    - a [std::vector] is a list; reading or writing outside its bounds is
      undefined behaviour and makes the conversion return [None];
    - the C++ overloads of [toMsg] get one name each. *)

From Stdlib Require Import ZArith Lia Strings.Byte Floats.SpecFloat.
From stdpp Require Import base numbers option list strings.

Local Open Scope Z_scope.

(** ** Machine integers *)

Definition u32 (z : Z) : Z := z mod 2 ^ 32.
Definition u64 (z : Z) : Z := z mod 2 ^ 64.

Definition byte_of_Z (z : Z) : byte :=
  default x00 (Byte.of_N (Z.to_N (z mod 256))).

(** ** The executing machine

    What the endianness probe observes of the machine is the object
    representation of a [std::uint16_t]: its two bytes in increasing address
    order. *)
Module Host.

Record t := { u16_bytes : Z → list byte }.

Definition little_endian : t :=
  {| u16_bytes v := [byte_of_Z v; byte_of_Z (v / 256)] |}.

Definition big_endian : t :=
  {| u16_bytes v := [byte_of_Z (v / 256); byte_of_Z v] |}.

End Host.

(** ** Floating point *)
Module Float.

Definition double := spec_float.
Definition float := spec_float.

(** conversion of an integer to [double] and to [float] *)
Definition f64_of_Z (z : Z) : double := binary_normalize 53 1024 z 0 false.
Definition f32_of_Z (z : Z) : float := binary_normalize 24 128 z 0 false.

Definition f64_mul : double → double → double := SFmul 53 1024.
Definition f64_div : double → double → double := SFdiv 53 1024.

(** the narrowing conversion [double] to [float] *)
Definition f32_of_f64 (x : double) : float :=
  match x with
  | S754_finite s m e =>
      binary_normalize 24 128 (if s then Z.neg m else Z.pos m) e s
  | _ => x
  end.

(** the [double] nearest to the decimal [m · 10^-k]; [m] and [10^k] are
    integers below 2^53, so both convert exactly and the quotient is
    rounded once *)
Definition f64_dec (m : Z) (k : Z) : double :=
  f64_div (f64_of_Z m) (f64_of_Z (10 ^ k)).

(** the [float] nearest to [m · 10^-k], for [m] and [10^k] below 2^24 *)
Definition f32_dec (m : Z) (k : Z) : float :=
  SFdiv 24 128 (f32_of_Z m) (f32_of_Z (10 ^ k)).

(** [M_PI], 3.14159265358979323846 rounded to [double] *)
Definition M_PI : double := S754_finite false 7074237752028440 (-51).

End Float.
Import Float.

Global Instance spec_float_inhabited : Inhabited spec_float := populate S754_nan.

(** ** Loops *)

(** at most [fuel] iterations of [for (; i < bound; i += step) body], for a
    body that cannot fail *)
Fixpoint for_step {S : Type} (fuel : nat) (i bound step : Z)
    (body : Z → S → S) (s : S) : S :=
  match fuel with
  | O => s
  | Datatypes.S fuel' =>
      if i <? bound then for_step fuel' (i + step) bound step body (body i s)
      else s
  end.

(** [for (i = i0; i < bound; i += step) body] with a positive step: the
    loop ends within [bound - i0] iterations *)
Definition for_lt {S : Type} (i0 bound step : Z) (body : Z → S → S) (s : S) : S :=
  for_step (Z.to_nat (bound - i0)) i0 bound step body s.

(** [n] iterations of [body] at the consecutive indices [i], [i + 1], ...;
    a failure of the body ends the loop *)
Fixpoint for_range {S : Type} (n : nat) (i : Z) (body : Z → S → option S)
    (s : S) : option S :=
  match n with
  | O => Some s
  | Datatypes.S n' => s' ← body i s; for_range n' (i + 1) body s'
  end.

(** [std::memcpy(&dst[off], src, n)] *)
Definition memcpy (dst : list byte) (off : Z) (src : list byte) (n : Z)
    : option (list byte) :=
  if bool_decide (off + n ≤ Z.of_nat (length dst) ∧ n ≤ Z.of_nat (length src))
  then Some (list_inserts (Z.to_nat off) (take (Z.to_nat n) src) dst)
  else None.

(** the [n] bytes of the [k]-th record of a buffer of [n]-byte records *)
Definition record_at (n : Z) (data : list byte) (k : Z) : list byte :=
  take (Z.to_nat n) (drop (Z.to_nat (k * n)) data).

(** ** Messages *)

(** [rclcpp::Time]: a count of nanoseconds *)
Record rclcpp_Time := { nanoseconds : Z }.

Record Header := { stamp : rclcpp_Time; frame_id : string }.

Record Vector3 := { v_x : double; v_y : double; v_z : double }.

Record Quaternion :=
  { q_x : double; q_y : double; q_z : double; q_w : double }.

(** [sensor_msgs::msg::Imu] *)
Module Imu.

Record t := {
  header : Header;
  orientation : Quaternion;
  orientation_covariance : list double;
  angular_velocity : Vector3;
  angular_velocity_covariance : list double;
  linear_acceleration : Vector3;
  linear_acceleration_covariance : list double
}.

(** the message as its constructor leaves it: all zero *)
Definition init : t :=
  let zero := f64_of_Z 0 in
  let zero3 := {| v_x := zero; v_y := zero; v_z := zero |} in
  {| header := {| stamp := {| nanoseconds := 0 |}; frame_id := "" |};
     orientation := {| q_x := zero; q_y := zero; q_z := zero; q_w := f64_of_Z 1 |};
     orientation_covariance := replicate 9 zero;
     angular_velocity := zero3;
     angular_velocity_covariance := replicate 9 zero;
     linear_acceleration := zero3;
     linear_acceleration_covariance := replicate 9 zero |}.

Definition set_orientation_covariance (i : Z) (v : double) (m : t) : t :=
  {| header := header m; orientation := orientation m;
     orientation_covariance := <[Z.to_nat i := v]> (orientation_covariance m);
     angular_velocity := angular_velocity m;
     angular_velocity_covariance := angular_velocity_covariance m;
     linear_acceleration := linear_acceleration m;
     linear_acceleration_covariance := linear_acceleration_covariance m |}.

Definition set_angular_velocity_covariance (i : Z) (v : double) (m : t) : t :=
  {| header := header m; orientation := orientation m;
     orientation_covariance := orientation_covariance m;
     angular_velocity := angular_velocity m;
     angular_velocity_covariance :=
       <[Z.to_nat i := v]> (angular_velocity_covariance m);
     linear_acceleration := linear_acceleration m;
     linear_acceleration_covariance := linear_acceleration_covariance m |}.

Definition set_linear_acceleration_covariance (i : Z) (v : double) (m : t) : t :=
  {| header := header m; orientation := orientation m;
     orientation_covariance := orientation_covariance m;
     angular_velocity := angular_velocity m;
     angular_velocity_covariance := angular_velocity_covariance m;
     linear_acceleration := linear_acceleration m;
     linear_acceleration_covariance :=
       <[Z.to_nat i := v]> (linear_acceleration_covariance m) |}.

End Imu.

(** [tf2::Transform]: a rotation basis, row by row, and an origin *)
Module Tf2.

Record Matrix3x3 := { row0 : Vector3; row1 : Vector3; row2 : Vector3 }.

Record Transform := { m_basis : Matrix3x3; m_origin : Vector3 }.

Definition identity_basis : Matrix3x3 :=
  let o := f64_of_Z 0 in
  let l := f64_of_Z 1 in
  {| row0 := {| v_x := l; v_y := o; v_z := o |};
     row1 := {| v_x := o; v_y := l; v_z := o |};
     row2 := {| v_x := o; v_y := o; v_z := l |} |}.

End Tf2.

(** [geometry_msgs::msg::TransformStamped], over the type [Tr] of
    [geometry_msgs::msg::Transform] *)
Module TransformStamped.

Record t (Tr : Type) := {
  header : Header;
  child_frame_id : string;
  transform : Tr
}.
Arguments header {Tr} _.
Arguments child_frame_id {Tr} _.
Arguments transform {Tr} _.

End TransformStamped.

(** [sensor_msgs::msg::LaserScan]; every real field is a [float] *)
Module LaserScan.

Record t := {
  header : Header;
  angle_min : float;
  angle_max : float;
  angle_increment : float;
  time_increment : float;
  scan_time : float;
  range_min : float;
  range_max : float;
  ranges : list float;
  intensities : list float
}.

End LaserScan.

(** Modelled from the spec: the struct [scan_os::ScanOS] of scan_os.hpp,
    which is not among the sources. The spec's ScanSample is one lidar return
    with its source ring, a timestamp in nanoseconds and a range/intensity
    pair; the conversion reads the members [range] (an unsigned count of
    millimetres), [intensity] (a [float], as the commented [std::min] with
    [255.0f] requires), [ring] and [t]. *)
Module scan_os.

Record ScanOS := {
  range : Z;
  intensity : float;
  ring : Z;
  t : Z
}.

End scan_os.
Abbreviation ScanOS := scan_os.ScanOS.

(** Modelled from the spec: the struct [ros2_ouster::Metadata], whose
    declaration is not among the sources: two IP identifiers, two port
    numbers and the lasers-per-revolution count [num_lasers]. *)
Module Metadata.

Record t := {
  computer_ip : string;
  lidar_ip : string;
  imu_port : Z;
  lidar_port : Z;
  num_lasers : Z
}.

End Metadata.

(** [pcl::PCLPointField], one entry of the descriptor list *)
Record PCLPointField := {
  pf_name : string;
  pf_offset : Z;
  pf_datatype : Z;
  pf_count : Z
}.

(** What the conversion uses of a PCL point type: [sizeof], the object
    representation copied by [memcpy], and the field list of the point
    traits. The declaration of [point_os::PointOS] (point_os.hpp) is not
    among the sources, so the point type is a parameter. *)
Class PointType (P : Type) := {
  sizeof : Z;
  object_bytes : P → list byte;
  fieldList : list PCLPointField
}.

(** A point type is laid out properly when every object occupies [sizeof]
    bytes and [sizeof] fits the 32-bit [point_step] of PCL. *)
Definition laid_out (P : Type) `{PointType P} : Prop :=
  0 < sizeof < 2 ^ 32 ∧ ∀ p : P, Z.of_nat (length (object_bytes p)) = sizeof.

(** A point given by its object representation: 48 bytes, the size the
    source records for [point_os::PointOS] ("1536000 = 48 * 16 * 2000");
    a shorter list is padded with zero bytes. *)
Definition raw_point := list byte.

#[global]
Instance raw_point_type : PointType raw_point := {|
  sizeof := 48;
  object_bytes p := take 48 (p ++ replicate 48 x00);
  fieldList := []
|}.

(** [pcl::PointCloud<P>] *)
Module PointCloud.

Record t (P : Type) := {
  points : list P;
  width : Z;
  height : Z;
  is_dense : bool
}.
Arguments points {P} _.
Arguments width {P} _.
Arguments height {P} _.
Arguments is_dense {P} _.

End PointCloud.

(** [sensor_msgs::msg::PointCloud2] *)
Module PointCloud2.

Record t := {
  header : Header;
  height : Z;
  width : Z;
  fields : list PCLPointField;
  is_bigendian : bool;
  point_step : Z;
  row_step : Z;
  data : list byte;
  is_dense : bool
}.

End PointCloud2.

(** ** Inputs used in the statements below *)

Definition sample (r i g ns : Z) : ScanOS :=
  {| scan_os.range := r; scan_os.intensity := f32_of_Z i; scan_os.ring := g;
     scan_os.t := ns |}.

(** the sample sequence of the spec's scan filter example *)
Definition example_scans : list ScanOS :=
  [sample 5 10 0 100; sample 3 20 1 200; sample 7 30 0 300].

Definition lasers (n : Z) : Metadata.t :=
  {| Metadata.computer_ip := ""; Metadata.lidar_ip := "";
     Metadata.imu_port := 0; Metadata.lidar_port := 0;
     Metadata.num_lasers := n |}.

(** the identity 4×4 matrix, row-major *)
Definition identity16 : list double :=
  let o := f64_of_Z 0 in
  let l := f64_of_Z 1 in
  [l; o; o; o;  o; l; o; o;  o; o; l; o;  o; o; o; l].

(** a rotation by a quarter turn about z with a translation of
    (1500, -250, 40) millimetres *)
Definition example_matrix : list double :=
  let o := f64_of_Z 0 in
  let l := f64_of_Z 1 in
  [o; f64_of_Z (-1); o; f64_of_Z 1500;
   l; o; o; f64_of_Z (-250);
   o; o; l; f64_of_Z 40;
   o; o; o; l].

(** 2^32 copies of one sample of ring 0 *)
Definition many_scans : list ScanOS :=
  replicate (Z.to_nat (2 ^ 32)) (sample 5 10 0 100).

(** two points told apart by their first byte *)
Definition point_a : raw_point := [x01].
Definition point_b : raw_point := [x02].

(** a cloud of 65537 rings and 65536 columns: [point_a] in its first 65536
    places and [point_b] in all others *)
Definition wide_cloud : PointCloud.t raw_point :=
  {| PointCloud.points :=
       replicate (Z.to_nat 65536) point_a ++
       replicate (Z.to_nat (65537 * 65536 - 65536)) point_b;
     PointCloud.width := 65536;
     PointCloud.height := 65537;
     PointCloud.is_dense := true |}.

(** a cloud of 2 rings and 3 columns, column after column *)
Definition small_cloud : PointCloud.t raw_point :=
  {| PointCloud.points := [[x01]; [x02]; [x03]; [x04]; [x05]; [x06]];
     PointCloud.width := 3;
     PointCloud.height := 2;
     PointCloud.is_dense := true |}.

(** the same capture in a buffer allocated for 4 columns: the fourth column
    is padding *)
Definition padded_cloud : PointCloud.t raw_point :=
  {| PointCloud.points :=
       [[x01]; [x02]; [x03]; [x04]; [x05]; [x06]; [x07]; [x08]];
     PointCloud.width := 4;
     PointCloud.height := 2;
     PointCloud.is_dense := true |}.

(** a cloud without points, of the given height *)
Definition empty_cloud (height : Z) : PointCloud.t raw_point :=
  {| PointCloud.points := [];
     PointCloud.width := 0;
     PointCloud.height := height;
     PointCloud.is_dense := false |}.

(** [picture_os::ImageOS] of image_os.hpp and its factory, which takes the
    ten quantities of a lidar return and stores six of them *)
Module picture_os.

Record ImageOS := {
  intensity : float;
  reflectivity : Z;
  noise : Z;
  range : Z;
  ring : Z;
  col : Z
}.

Definition make (x y z intensity : float) (t reflectivity ring col noise range : Z)
    : ImageOS :=
  {| picture_os.intensity := intensity;
     picture_os.reflectivity := reflectivity;
     picture_os.noise := noise;
     picture_os.range := range;
     picture_os.ring := ring;
     picture_os.col := col |}.

End picture_os.

(** Modelled from the spec: the message [ouster_msgs::msg::Metadata], whose
    declaration is not among the sources; the spec's metadata message
    contract carries the computer/lidar IP strings and the IMU/lidar port
    numbers, the four members the conversion assigns. *)
Module MetadataMsg.

Record t := {
  computer_ip : string;
  lidar_ip : string;
  imu_port : Z;
  lidar_port : Z
}.

End MetadataMsg.

(** The enumeration [ClientState] of OS1.hpp is not among the sources: the
    switch of [toString] names five enumerators, and an object of the
    enumeration that holds any other value takes the default branch. *)
Inductive ClientState :=
  | TIMEOUT
  | ERROR
  | EXIT
  | IMU_DATA
  | LIDAR_DATA
  | other_state (value : Z).

(** ** The conversions *)
Module ros2_ouster.

(** Convert ClientState to string *)
Definition toString (state : ClientState) : string :=
  match state with
  | TIMEOUT => "timeout"
  | ERROR => "error"
  | EXIT => "exit"
  | IMU_DATA => "imu data"
  | LIDAR_DATA => "lidar data"
  | other_state _ => "unknown"
  end.

(** Convert metadata to message format *)
Definition toMsg_metadata (mdata : Metadata.t) : MetadataMsg.t :=
  {| MetadataMsg.computer_ip := Metadata.computer_ip mdata;
     MetadataMsg.lidar_ip := Metadata.lidar_ip mdata;
     MetadataMsg.imu_port := Metadata.imu_port mdata;
     MetadataMsg.lidar_port := Metadata.lidar_port mdata |}.

(** Run-time big endian check: the lowest-addressed byte of a
    [std::uint16_t] holding 0x1 is compared with 0x1. *)
Definition IS_BIGENDIAN (host : Host.t) : bool :=
  let dummy := 0x1 in
  let dummy_ptr := Host.u16_bytes host dummy in
  match dummy_ptr !! 0%nat with
  | Some b => if Byte.eqb b x01 then false else true
  | None => true
  end.

(** Convert transformation to message format. [assert(mat.size() == 16)]
    guards the body; [tf2_toMsg] is the library conversion [tf2::toMsg] of a
    [tf2::Transform] to [geometry_msgs::msg::Transform]. *)
Definition toMsg_transform {Tr : Type} (tf2_toMsg : Tf2.Transform → Tr)
    (mat : list double) (frame child_frame : string) (time : rclcpp_Time)
    : option (TransformStamped.t Tr) :=
  if bool_decide (length mat = 16%nat) then
    m0 ← mat !! 0%nat; m1 ← mat !! 1%nat; m2 ← mat !! 2%nat;
    m3 ← mat !! 3%nat; m4 ← mat !! 4%nat; m5 ← mat !! 5%nat;
    m6 ← mat !! 6%nat; m7 ← mat !! 7%nat; m8 ← mat !! 8%nat;
    m9 ← mat !! 9%nat; m10 ← mat !! 10%nat; m11 ← mat !! 11%nat;
    let c1e3 := f64_of_Z 1000 in
    let tf :=
      {| Tf2.m_origin :=
           {| v_x := f64_div m3 c1e3; v_y := f64_div m7 c1e3;
              v_z := f64_div m11 c1e3 |};
         Tf2.m_basis :=
           {| Tf2.row0 := {| v_x := m0; v_y := m1; v_z := m2 |};
              Tf2.row1 := {| v_x := m4; v_y := m5; v_z := m6 |};
              Tf2.row2 := {| v_x := m8; v_y := m9; v_z := m10 |} |} |} in
    Some {| TransformStamped.header := {| stamp := time; frame_id := frame |};
            TransformStamped.child_frame_id := child_frame;
            TransformStamped.transform := tf2_toMsg tf |}
  else None.

(** Convert IMU to message format. The body that read the packet is
    commented out in the source; [buf] and [override_ts] are unused. *)
Definition toMsg_imu (buf : list byte) (frame : string) (override_ts : Z)
    : Imu.t :=
  let m := Imu.init in
  let m :=
    {| Imu.header := {| stamp := {| nanoseconds := 0 |}; frame_id := frame |};
       Imu.orientation :=
         {| q_x := f64_of_Z 0; q_y := f64_of_Z 0; q_z := f64_of_Z 0;
            q_w := f64_of_Z 1 |};
       Imu.orientation_covariance := Imu.orientation_covariance m;
       Imu.angular_velocity :=
         {| v_x := f64_of_Z 0; v_y := f64_of_Z 0; v_z := f64_of_Z 0 |};
       Imu.angular_velocity_covariance := Imu.angular_velocity_covariance m;
       Imu.linear_acceleration :=
         {| v_x := f64_of_Z 0; v_y := f64_of_Z 0; v_z := f64_of_Z 0 |};
       Imu.linear_acceleration_covariance :=
         Imu.linear_acceleration_covariance m |} in
  let m :=
    for_lt 0 9 1 (λ i m,
      let m := Imu.set_orientation_covariance i (f64_of_Z (-1)) m in
      let m := Imu.set_angular_velocity_covariance i (f64_of_Z 0) m in
      Imu.set_linear_acceleration_covariance i (f64_of_Z 0) m) m in
  for_lt 0 9 4 (λ i m,
    let m := Imu.set_linear_acceleration_covariance i (f64_dec 1 2) m in
    Imu.set_angular_velocity_covariance i (f64_dec 6 4) m) m.

(** The body of the copy loop: the record [i * height + j] of the cloud goes
    to the record [j * width + i] of the buffer, both indices computed in
    32-bit unsigned arithmetic and the byte offset in [std::size_t]. *)
Definition copy_point {P : Type} `{PointType P} (points : list P)
    (width height : Z) (i j : Z) (data : list byte) : option (list byte) :=
  p ← points !! Z.to_nat (u32 (u32 (i * height) + j));
  memcpy data (u64 (u32 (u32 (j * width) + i) * sizeof)) (object_bytes p) sizeof.

(** column-major to row-major conversion *)
Definition transpose_loop {P : Type} `{PointType P} (points : list P)
    (width height : Z) (data : list byte) : option (list byte) :=
  for_range (Z.to_nat width) 0 (λ i data,
    for_range (Z.to_nat height) 0 (λ j data,
      copy_point points width height i j data) data) data.

(** Convert Pointcloud to ROS message format. The PCL header of the cloud is
    moved into the message and then overwritten by [frame] and [timestamp],
    so it is left out. *)
Definition toMsg_cloud {P : Type} `{PointType P} (host : Host.t)
    (cloud : PointCloud.t P) (realwidth : Z) (timestamp : Z) (frame : string)
    : option PointCloud2.t :=
  let pt_size := sizeof in
  let height := PointCloud.height cloud in
  let width := realwidth in
  let data_size := u64 (u64 (pt_size * width) * height) in
  let data := replicate (Z.to_nat data_size) x00 in
  data ← (if bool_decide (data_size = 0) then Some data
          else transpose_loop (PointCloud.points cloud) width height data);
  Some {| PointCloud2.header :=
            {| stamp := {| nanoseconds := timestamp |}; frame_id := frame |};
          PointCloud2.height := height;
          PointCloud2.width := width;
          PointCloud2.fields := fieldList;
          PointCloud2.is_bigendian := IS_BIGENDIAN host;
          PointCloud2.point_step := u32 pt_size;
          PointCloud2.row_step := u32 (u64 (pt_size * width));
          PointCloud2.data := data;
          PointCloud2.is_dense := PointCloud.is_dense cloud |}.

(** the [float] range in metres pushed for a sample *)
Definition range_m (s : ScanOS) : float :=
  f32_of_f64 (f64_mul (f64_of_Z (scan_os.range s)) (f64_dec 1 3)).

(** The body of the ring filter: [scans[i]] is read, and pushed to both
    output vectors when its ring is the one to use. *)
Definition push_if_ring (scans : list ScanOS) (ring_to_use : Z) (i : Z)
    (out : list float * list float) : option (list float * list float) :=
  s ← scans !! Z.to_nat i;
  if bool_decide (scan_os.ring s = ring_to_use)
  then Some (out.1 ++ [range_m s], out.2 ++ [scan_os.intensity s])
  else Some out.

(** Convert Scan to message format *)
Definition toMsg_scan (scans : list ScanOS) (realwidth : Z) (timestamp : Z)
    (frame : string) (mdata : Metadata.t) (ring_to_use : Z)
    : option LaserScan.t :=
  let two_pi := f64_mul (f64_of_Z 2) M_PI in
  let resolution := f64_of_Z realwidth in
  s0 ← scans !! 0%nat;
  let dts := f64_mul (f64_of_Z (scan_os.t s0)) (f64_dec 1 9) in
  let real_size := u32 (Metadata.num_lasers mdata * realwidth) in
  out ← for_range (Z.to_nat real_size) 0 (push_if_ring scans ring_to_use) ([], []);
  Some {| LaserScan.header :=
            {| stamp := {| nanoseconds := timestamp |}; frame_id := frame |};
          LaserScan.angle_min := f32_of_Z 0;
          LaserScan.angle_max := f32_of_f64 two_pi;
          LaserScan.angle_increment := f32_of_f64 (f64_div two_pi resolution);
          LaserScan.time_increment := f32_of_f64 (f64_div dts resolution);
          LaserScan.scan_time := f32_of_f64 dts;
          LaserScan.range_min := f32_of_f64 (f64_dec 25 3);
          LaserScan.range_max := f32_of_f64 (f64_of_Z 20);
          LaserScan.ranges := out.1;
          LaserScan.intensities := out.2 |}.

End ros2_ouster.
Import ros2_ouster.

(** ** Notions used in the statements *)

Definition is_finite (x : spec_float) : bool :=
  match x with
  | S754_zero _ | S754_finite _ _ _ => true
  | S754_infinity _ | S754_nan => false
  end.

(** The index [i × height + j] of the point that the iteration [(i, j)] of
    the copy loop reads, for the record [k = j × width + i] it writes. *)
Definition source_index (width height k : Z) : Z :=
  (k mod width) * height + k / width.

(** the record [source_index] names for every record of the buffer: the
    cloud in row-major order *)
Definition row_major {P : Type} (points : list P) (width height : Z)
    : option (list P) :=
  mapM (λ k, points !! Z.to_nat (source_index width height k))
       (seqZ 0 (width * height)).

(** * Properties *)

(** ** Machine integers *)

Lemma u32_small z : 0 ≤ z < 2 ^ 32 → u32 z = z.
Proof. intros. unfold u32. by rewrite Z.mod_small. Qed.

Lemma u64_small z : 0 ≤ z < 2 ^ 64 → u64 z = z.
Proof. intros. unfold u64. by rewrite Z.mod_small. Qed.

Lemma u32_range z : 0 ≤ u32 z < 2 ^ 32.
Proof. unfold u32. apply Z.mod_pos_bound. lia. Qed.

Lemma u32_le z : 0 ≤ z → u32 z ≤ z.
Proof. intros. unfold u32. apply Z.mod_le; lia. Qed.

(** ** Constants *)

(** [M_PI] is the double nearest to the decimal constant of <cmath>: the
    constant lies within half a unit in the last place of it. *)
Lemma M_PI_nearest :
  ∃ m : positive, M_PI = S754_finite false m (-51) ∧
    (2 * Z.pos m - 1) * 10 ^ 20 < 2 * 314159265358979323846 * 2 ^ 51
      < (2 * Z.pos m + 1) * 10 ^ 20.
Proof. eexists. split; [reflexivity|]. lia. Qed.

(** The decimal literals of the source as doubles: each lies within half a
    unit in the last place of the decimal it is written as. *)
Lemma f64_dec_1e_9 :
  ∃ m : positive, f64_dec 1 9 = S754_finite false m (-82) ∧
    (2 * Z.pos m - 1) * 10 ^ 9 < 2 * 2 ^ 82 < (2 * Z.pos m + 1) * 10 ^ 9.
Proof. eexists. split; [vm_compute; reflexivity|]. lia. Qed.

Lemma f64_dec_1e_3 :
  ∃ m : positive, f64_dec 1 3 = S754_finite false m (-62) ∧
    (2 * Z.pos m - 1) * 10 ^ 3 < 2 * 2 ^ 62 < (2 * Z.pos m + 1) * 10 ^ 3.
Proof. eexists. split; [vm_compute; reflexivity|]. lia. Qed.

Lemma f64_dec_0_01 :
  ∃ m : positive, f64_dec 1 2 = S754_finite false m (-59) ∧
    (2 * Z.pos m - 1) * 10 ^ 2 < 2 * 2 ^ 59 < (2 * Z.pos m + 1) * 10 ^ 2.
Proof. eexists. split; [vm_compute; reflexivity|]. lia. Qed.

Lemma f64_dec_6e_4 :
  ∃ m : positive, f64_dec 6 4 = S754_finite false m (-63) ∧
    (2 * Z.pos m - 1) * 10 ^ 4 < 2 * 6 * 2 ^ 63 < (2 * Z.pos m + 1) * 10 ^ 4.
Proof. eexists. split; [vm_compute; reflexivity|]. lia. Qed.

Lemma f64_dec_0_025 :
  ∃ m : positive, f64_dec 25 3 = S754_finite false m (-58) ∧
    (2 * Z.pos m - 1) * 10 ^ 3 < 2 * 25 * 2 ^ 58 < (2 * Z.pos m + 1) * 10 ^ 3.
Proof. eexists. split; [vm_compute; reflexivity|]. lia. Qed.

(** ** Loops *)

Lemma for_step_done {S : Type} (fuel : nat) (i bound step : Z)
    (body : Z → S → S) (s : S) :
  bound ≤ i → for_step fuel i bound step body s = s.
Proof.
  intros Hi. destruct fuel as [|fuel]; [done|]. cbn [for_step].
  by rewrite (proj2 (Z.ltb_ge i bound)) by lia.
Qed.

(** The fuel of [for_lt] is enough: more fuel gives the same outcome. *)
Lemma for_step_enough_fuel {S : Type} (fuel : nat) (i bound step : Z)
    (body : Z → S → S) (s : S) :
  0 < step → (Z.to_nat (bound - i) ≤ fuel)%nat →
  for_step fuel i bound step body s = for_lt i bound step body s.
Proof.
  intros Hstep. unfold for_lt.
  assert (∀ f1 f2 i s, (Z.to_nat (bound - i) ≤ f1)%nat →
            (Z.to_nat (bound - i) ≤ f2)%nat →
            for_step f1 i bound step body s = for_step f2 i bound step body s)
    as Hmono; [|intros; by apply Hmono].
  clear fuel i s. induction f1 as [|f1 IH]; intros f2 i s H1 H2.
  - rewrite (for_step_done f2) by lia. done.
  - destruct f2 as [|f2]; [by rewrite for_step_done by lia|].
    cbn [for_step]. destruct (i <? bound) eqn:Hlt; [|done].
    apply Z.ltb_lt in Hlt. apply IH; lia.
Qed.

(** Two bodies that agree on the indices a loop visits give the same loop. *)
Lemma for_range_ext {S : Type} (n : nat) (i0 : Z) (f g : Z → S → option S) s :
  (∀ i s, i0 ≤ i < i0 + Z.of_nat n → f i s = g i s) →
  for_range n i0 f s = for_range n i0 g s.
Proof.
  revert i0 s. induction n as [|n IH]; intros i0 s Hfg; [done|].
  cbn [for_range]. rewrite Hfg by lia.
  destruct (g i0 s) as [s'|]; [|done]. cbn.
  apply IH. intros i s'' Hi. apply Hfg. lia.
Qed.

(** The invariant rule of a loop whose body cannot fail under the
    invariant: the loop completes and the invariant holds at its end. *)
Lemma for_range_inv {S : Type} (Inv : Z → S → Prop) (n : nat) (i0 : Z)
    (body : Z → S → option S) (s : S) :
  Inv i0 s →
  (∀ i s, i0 ≤ i < i0 + Z.of_nat n → Inv i s →
     ∃ s', body i s = Some s' ∧ Inv (i + 1) s') →
  ∃ s', for_range n i0 body s = Some s' ∧ Inv (i0 + Z.of_nat n) s'.
Proof.
  revert i0 s. induction n as [|n IH]; intros i0 s Hs Hbody.
  - exists s. split; [done|]. by replace (i0 + Z.of_nat 0) with i0 by lia.
  - destruct (Hbody i0 s) as (s1 & Hs1 & Hinv); [lia|done|].
    destruct (IH (i0 + 1) s1) as (s2 & Hs2 & Hinv2); [done| |].
    + intros i s' Hi. apply Hbody. lia.
    + exists s2. cbn [for_range]. rewrite Hs1. cbn. split; [done|].
      by replace (i0 + Z.of_nat (Datatypes.S n)) with (i0 + 1 + Z.of_nat n) by lia.
Qed.

(** A loop stops with a failure at the first index whose body fails. *)
Lemma for_range_fails {S : Type} (n : nat) (i0 k : Z)
    (body : Z → S → option S) (s : S) :
  i0 ≤ k < i0 + Z.of_nat n →
  (∀ s, body k s = None) →
  for_range n i0 body s = None.
Proof.
  revert i0 s. induction n as [|n IH]; intros i0 s Hk Hnone; [lia|].
  cbn [for_range]. destruct (decide (k = i0)) as [->|Hne].
  - by rewrite Hnone.
  - destruct (body i0 s) as [s'|]; [|done]. cbn. apply IH; [lia|done].
Qed.

(** ** The endianness probe *)

(** C8: the probe is determined by what the machine stores for the pattern
    0x1 — two machines (or two evaluations on one machine) that store the
    same bytes get the same flag — and it is correct: the flag is-big-endian
    is false exactly when the byte at the lowest address of the stored
    pattern is the low-order byte 0x01, and true otherwise.  In particular it
    is false on the machine that stores the low-order byte first and true on
    the machine that stores the high-order byte first. *)
Theorem IS_BIGENDIAN_probe (host : Host.t) :
  (IS_BIGENDIAN host = false ↔ Host.u16_bytes host 1 !! 0%nat = Some x01) ∧
  (IS_BIGENDIAN host = true ↔ Host.u16_bytes host 1 !! 0%nat ≠ Some x01) ∧
  (∀ host' : Host.t,
     Host.u16_bytes host' 1 = Host.u16_bytes host 1 →
     IS_BIGENDIAN host' = IS_BIGENDIAN host) ∧
  IS_BIGENDIAN Host.little_endian = false ∧
  IS_BIGENDIAN Host.big_endian = true.
Proof.
  assert (IS_BIGENDIAN host = false ↔
          Host.u16_bytes host 1 !! 0%nat = Some x01) as Hfalse.
  { unfold IS_BIGENDIAN.
    destruct (Host.u16_bytes host 1 !! 0%nat) as [b|]; [|done].
    destruct (Byte.eqb b x01) eqn:Hb; split; try done.
    - intros _. f_equal. by apply Byte.byte_dec_bl.
    - intros [= ->]. vm_compute in Hb. done. }
  split_and!; [exact Hfalse| |..|reflexivity|reflexivity].
  - rewrite <- Hfalse. by destruct (IS_BIGENDIAN host).
  - intros host' Hsame. unfold IS_BIGENDIAN. by rewrite Hsame.
Qed.

(** On a machine that stores the high-order byte first the flag is true. *)
Lemma IS_BIGENDIAN_big_endian : IS_BIGENDIAN Host.big_endian = true.
Proof. reflexivity. Qed.

(** ** The IMU placeholder *)

(** C9: whatever the buffer, the frame and the override timestamp, the IMU
    conversion returns the fixed placeholder: orientation (0, 0, 0, 1), zero
    linear acceleration and angular velocity, a linear-acceleration
    covariance with 0.01 on the diagonal and 0 elsewhere, an angular-velocity
    covariance with 6e-4 on the diagonal and 0 elsewhere, and an orientation
    covariance whose nine entries are -1. *)
Theorem toMsg_imu_placeholder (buf : list byte) (frame : string) (override_ts : Z) :
  let m := toMsg_imu buf frame override_ts in
  let o := f64_of_Z 0 in
  let la := f64_dec 1 2 in
  let av := f64_dec 6 4 in
  Imu.orientation m = {| q_x := o; q_y := o; q_z := o; q_w := f64_of_Z 1 |} ∧
  Imu.linear_acceleration m = {| v_x := o; v_y := o; v_z := o |} ∧
  Imu.angular_velocity m = {| v_x := o; v_y := o; v_z := o |} ∧
  Imu.linear_acceleration_covariance m = [la; o; o;  o; la; o;  o; o; la] ∧
  Imu.angular_velocity_covariance m = [av; o; o;  o; av; o;  o; o; av] ∧
  Imu.orientation_covariance m = replicate 9 (f64_of_Z (-1)).
Proof.
  intros m o la av. subst m o la av.
  repeat split; vm_compute; reflexivity.
Qed.

(** C10: the IMU message depends on the frame alone: two calls with the same
    frame and any buffers and override timestamps return equal messages, and
    the header carries time 0 and the frame. *)
Theorem toMsg_imu_frame_only (buf1 buf2 : list byte) (frame : string)
    (override_ts1 override_ts2 : Z) :
  toMsg_imu buf1 frame override_ts1 = toMsg_imu buf2 frame override_ts2 ∧
  stamp (Imu.header (toMsg_imu buf1 frame override_ts1)) = {| nanoseconds := 0 |} ∧
  frame_id (Imu.header (toMsg_imu buf1 frame override_ts1)) = frame.
Proof.
  split.
  - reflexivity.
  - split; vm_compute; reflexivity.
Qed.

(** ** The transform *)

(** C6: for a matrix of 16 elements the conversion returns the given frame,
    child frame and time, and hands to [tf2::toMsg] the transform whose
    origin is (m[3]/1000, m[7]/1000, m[11]/1000) and whose basis is the
    row-major block (m[0],m[1],m[2] / m[4],m[5],m[6] / m[8],m[9],m[10]);
    the identity matrix gives the zero origin and the identity basis. *)
Theorem toMsg_transform_decomposition {Tr : Type} (tf2_toMsg : Tf2.Transform → Tr)
    (mat : list double) (frame child_frame : string) (time : rclcpp_Time) :
  length mat = 16%nat →
  let m (k : nat) := mat !!! k in
  let mm := f64_of_Z 1000 in
  toMsg_transform tf2_toMsg mat frame child_frame time =
    Some {| TransformStamped.header := {| stamp := time; frame_id := frame |};
            TransformStamped.child_frame_id := child_frame;
            TransformStamped.transform := tf2_toMsg
              {| Tf2.m_origin :=
                   {| v_x := f64_div (m 3%nat) mm; v_y := f64_div (m 7%nat) mm;
                      v_z := f64_div (m 11%nat) mm |};
                 Tf2.m_basis :=
                   {| Tf2.row0 := {| v_x := m 0%nat; v_y := m 1%nat; v_z := m 2%nat |};
                      Tf2.row1 := {| v_x := m 4%nat; v_y := m 5%nat; v_z := m 6%nat |};
                      Tf2.row2 := {| v_x := m 8%nat; v_y := m 9%nat; v_z := m 10%nat |} |} |} |} ∧
  toMsg_transform tf2_toMsg identity16 frame child_frame time =
    Some {| TransformStamped.header := {| stamp := time; frame_id := frame |};
            TransformStamped.child_frame_id := child_frame;
            TransformStamped.transform := tf2_toMsg
              {| Tf2.m_origin :=
                   {| v_x := f64_of_Z 0; v_y := f64_of_Z 0; v_z := f64_of_Z 0 |};
                 Tf2.m_basis := Tf2.identity_basis |} |}.
Proof.
  intros Hlen m mm. split; [|reflexivity].
  do 17 (destruct mat as [|? mat]; try discriminate Hlen).
  reflexivity.
Qed.

Lemma toMsg_transform_decomposition_example :
  length example_matrix = 16%nat ∧
  toMsg_transform (λ tf, tf) example_matrix "os1_sensor" "os1_lidar"
      {| nanoseconds := 42 |} =
    Some {| TransformStamped.header :=
              {| stamp := {| nanoseconds := 42 |}; frame_id := "os1_sensor" |};
            TransformStamped.child_frame_id := "os1_lidar";
            TransformStamped.transform :=
              {| Tf2.m_origin :=
                   {| v_x := f64_dec 15 1; v_y := f64_div (f64_of_Z (-250)) (f64_of_Z 1000);
                      v_z := f64_dec 4 2 |};
                 Tf2.m_basis :=
                   {| Tf2.row0 := {| v_x := f64_of_Z 0; v_y := f64_of_Z (-1); v_z := f64_of_Z 0 |};
                      Tf2.row1 := {| v_x := f64_of_Z 1; v_y := f64_of_Z 0; v_z := f64_of_Z 0 |};
                      Tf2.row2 := {| v_x := f64_of_Z 0; v_y := f64_of_Z 0; v_z := f64_of_Z 1 |} |} |} |}.
Proof.
  split; [reflexivity|].
  pose proof (toMsg_transform_decomposition (λ tf, tf) example_matrix
                "os1_sensor" "os1_lidar" {| nanoseconds := 42 |} eq_refl) as [H _].
  etransitivity; [exact H|].
  vm_compute. reflexivity.
Defined.

(** ** The ring filter *)

Lemma push_if_ring_at (scans : list ScanOS) (ring_to_use : Z) (i : nat)
    (s : ScanOS) (out : list float * list float) :
  scans !! i = Some s →
  push_if_ring scans ring_to_use (Z.of_nat i) out =
    Some (if bool_decide (scan_os.ring s = ring_to_use)
          then (out.1 ++ [range_m s], out.2 ++ [scan_os.intensity s])
          else out).
Proof.
  intros Hs. unfold push_if_ring. rewrite Nat2Z.id, Hs. cbn.
  by case_bool_decide.
Qed.

(** The filter loop over [n] samples from index [i0] on, all of them inside
    the sequence, pushes the matching samples in order. *)
Lemma push_if_ring_loop (scans : list ScanOS) (ring_to_use : Z) (n i0 : nat)
    (out : list float * list float) :
  (i0 + n ≤ length scans)%nat →
  for_range n (Z.of_nat i0) (push_if_ring scans ring_to_use) out =
    let kept := filter (λ s, scan_os.ring s = ring_to_use) (take n (drop i0 scans)) in
    Some (out.1 ++ (range_m <$> kept), out.2 ++ (scan_os.intensity <$> kept)).
Proof.
  revert i0 out. induction n as [|n IH]; intros i0 [rs ins] Hlen.
  - cbn. by rewrite !app_nil_r.
  - destruct (lookup_lt_is_Some_2 scans i0) as [s Hs]; [lia|].
    cbn [for_range]. rewrite (push_if_ring_at _ _ _ _ _ Hs). cbn [mbind option_bind].
    rewrite (drop_S _ _ _ Hs). cbn [take].
    replace (Z.of_nat i0 + 1) with (Z.of_nat (Datatypes.S i0)) by lia.
    rewrite IH by lia. cbn zeta.
    case_bool_decide as Hring.
    + rewrite filter_cons_True by done. cbn. by rewrite <- !app_assoc.
    + by rewrite filter_cons_False by done.
Qed.

Lemma push_if_ring_loop_0 (scans : list ScanOS) (ring_to_use : Z) (n : nat) :
  (n ≤ length scans)%nat →
  for_range n 0 (push_if_ring scans ring_to_use) ([], []) =
    let kept := filter (λ s, scan_os.ring s = ring_to_use) (take n scans) in
    Some (range_m <$> kept, scan_os.intensity <$> kept).
Proof.
  intros Hn. change 0 with (Z.of_nat 0).
  rewrite push_if_ring_loop by lia. by rewrite drop_0.
Qed.

(** The filter loop fails when it runs past the end of the sequence. *)
Lemma push_if_ring_loop_fails (scans : list ScanOS) (ring_to_use : Z) (n : nat)
    (out : list float * list float) :
  (length scans < n)%nat →
  for_range n 0 (push_if_ring scans ring_to_use) out = None.
Proof.
  intros Hlen. apply (for_range_fails n 0 (Z.of_nat (length scans))); [lia|].
  intros out'. unfold push_if_ring. rewrite Nat2Z.id.
  by rewrite (lookup_ge_None_2 scans (length scans)) by lia.
Qed.

(** With nothing to scan the conversion pushes nothing. *)
Lemma toMsg_scan_nothing_scanned (scans : list ScanOS) (s0 : ScanOS)
    (realwidth timestamp : Z) (frame : string) (mdata : Metadata.t)
    (ring_to_use : Z) :
  scans !! 0%nat = Some s0 →
  u32 (Metadata.num_lasers mdata * realwidth) = 0 →
  LaserScan.ranges <$> toMsg_scan scans realwidth timestamp frame mdata ring_to_use
    = Some [].
Proof. intros H0 Hz. unfold toMsg_scan. rewrite H0, Hz. reflexivity. Qed.

Lemma elem_of_filter_take_replicate {A : Type} (P : A → Prop)
    `{∀ x, Decision (P x)} (n : nat) (x : A) :
  (0 < n)%nat → P x → x ∈ filter P (take n (replicate n x)).
Proof.
  intros Hn HP. apply list_elem_of_filter. split; [done|].
  rewrite take_replicate, Nat.min_id. apply elem_of_replicate. split; [done|lia].
Qed.

(** C3: for a non-empty sample sequence that covers the
    [num_lasers × realwidth] samples to scan, that count being below 2^32,
    the ranges and intensities of the message are the samples of the target
    ring among the first [num_lasers × realwidth], in their order, each range
    multiplied by 1e-3 and each intensity unchanged; their number is the
    number of matching samples and at most the length of the sequence. On the
    example sequence with two lasers and one column the first two samples are
    scanned: the ranges are [0.005] and the intensities [10]. *)
Theorem toMsg_scan_filter (scans : list ScanOS) (realwidth timestamp : Z)
    (frame : string) (mdata : Metadata.t) (ring_to_use : Z) :
  let size := Metadata.num_lasers mdata * realwidth in
  scans ≠ [] → 0 ≤ size < 2 ^ 32 → size ≤ Z.of_nat (length scans) →
  (∃ msg, toMsg_scan scans realwidth timestamp frame mdata ring_to_use = Some msg ∧
     let kept :=
       filter (λ s, scan_os.ring s = ring_to_use) (take (Z.to_nat size) scans) in
     LaserScan.ranges msg =
       (λ s, f32_of_f64 (f64_mul (f64_of_Z (scan_os.range s)) (f64_dec 1 3))) <$> kept ∧
     LaserScan.intensities msg = scan_os.intensity <$> kept ∧
     length (LaserScan.ranges msg) = length kept ∧
     (length (LaserScan.ranges msg) ≤ length scans)%nat) ∧
  LaserScan.ranges <$> toMsg_scan example_scans 1 timestamp frame (lasers 2) 0
    = Some [f32_dec 5 3] ∧
  LaserScan.intensities <$> toMsg_scan example_scans 1 timestamp frame (lasers 2) 0
    = Some [f32_of_Z 10].
Proof.
  intros size Hne Hsize Hlen. split; [|split; vm_compute; reflexivity].
  assert (∃ s0, scans !! 0%nat = Some s0) as [s0 H0].
  { destruct scans; [done|]. by eexists. }
  unfold toMsg_scan. rewrite H0. cbn [mbind option_bind].
  fold size. rewrite (u32_small size) by done.
  rewrite push_if_ring_loop_0 by lia.
  cbn zeta. cbn [mbind option_bind fst snd].
  eexists. split; [reflexivity|]. cbn [LaserScan.ranges LaserScan.intensities].
  repeat split.
  - by rewrite length_fmap.
  - rewrite length_fmap.
    etransitivity; [apply length_filter|]. rewrite length_take. lia.
Qed.

Lemma toMsg_scan_filter_example :
  (example_scans ≠ [] ∧ 0 ≤ Metadata.num_lasers (lasers 2) * 1 < 2 ^ 32 ∧
   Metadata.num_lasers (lasers 2) * 1 ≤ Z.of_nat (length example_scans)) ∧
  ∃ msg, toMsg_scan example_scans 1 0 "scan" (lasers 2) 0 = Some msg ∧
    LaserScan.ranges msg = [f32_dec 5 3] ∧
    LaserScan.intensities msg = [f32_of_Z 10] ∧
    length (LaserScan.ranges msg) = 1%nat.
Proof.
  assert (example_scans ≠ [] ∧ 0 ≤ Metadata.num_lasers (lasers 2) * 1 < 2 ^ 32 ∧
          Metadata.num_lasers (lasers 2) * 1 ≤ Z.of_nat (length example_scans))
    as Hpre by (split; [discriminate|cbn; lia]).
  split; [exact Hpre|].
  destruct Hpre as (Hne & Hsize & Hlen).
  destruct (toMsg_scan_filter example_scans 1 0 "scan" (lasers 2) 0 Hne Hsize Hlen)
    as [(msg & Hmsg & Hr & Hi & Hn & _) _].
  exists msg. split; [exact Hmsg|].
  rewrite Hn, Hr, Hi. repeat split.
Defined.

(** With three lasers the whole example sequence is scanned. *)
Example toMsg_scan_filter_three_lasers :
  LaserScan.ranges <$> toMsg_scan example_scans 1 0 "scan" (lasers 3) 0
    = Some [f32_dec 5 3; f32_dec 7 3] ∧
  LaserScan.intensities <$> toMsg_scan example_scans 1 0 "scan" (lasers 3) 0
    = Some [f32_of_Z 10; f32_of_Z 30].
Proof. split; vm_compute; reflexivity. Qed.

(** The claimed outcome of the scan filter example does not hold with two
    lasers and one column: the third sample lies beyond the two scanned. The
    empty sequence has no first sample to read, and a count of 2^32 samples
    wraps to a scan of none. *)
Lemma toMsg_scan_filter_example_claimed :
  (LaserScan.ranges <$> toMsg_scan example_scans 1 0 "scan" (lasers 2) 0
     = Some [f32_dec 5 3] ∧
   LaserScan.ranges <$> toMsg_scan example_scans 1 0 "scan" (lasers 2) 0
     ≠ Some [f32_dec 5 3; f32_dec 7 3] ∧
   LaserScan.intensities <$> toMsg_scan example_scans 1 0 "scan" (lasers 2) 0
     ≠ Some [f32_of_Z 10; f32_of_Z 30]) ∧
  (Metadata.num_lasers (lasers 0) * 0 ≤ Z.of_nat (length (@nil ScanOS)) ∧
   toMsg_scan [] 0 0 "scan" (lasers 0) 0 = None) ∧
  (Metadata.num_lasers (lasers 65536) * 65536 ≤ Z.of_nat (length many_scans) ∧
   LaserScan.ranges <$> toMsg_scan many_scans 65536 0 "scan" (lasers 65536) 0
     = Some [] ∧
   sample 5 10 0 100 ∈
     filter (λ s, scan_os.ring s = 0)
       (take (Z.to_nat (Metadata.num_lasers (lasers 65536) * 65536)) many_scans)).
Proof.
  split; [|split].
  - split; [vm_compute; reflexivity|]. split; vm_compute; discriminate.
  - split; [cbn; lia|reflexivity].
  - unfold many_scans.
    change (Metadata.num_lasers (lasers 65536) * 65536) with (2 ^ 32).
    split; [rewrite length_replicate; lia|]. split.
    + apply (toMsg_scan_nothing_scanned _ (sample 5 10 0 100)); [|reflexivity].
      apply lookup_replicate_2. lia.
    + apply elem_of_filter_take_replicate; [lia|reflexivity].
Qed.

(** ** The timing fields *)

(** C4: for a non-empty sample sequence and a positive realwidth the
    conversion is defined exactly when the sequence covers the samples to
    scan, and the message it returns has scan_time = samples[0].t × 1e-9,
    time_increment = that product / realwidth, angle_increment =
    2π / realwidth (each computed in double and stored as float),
    angle_min = 0, angle_max = 2π, range_min = 0.025 and range_max = 20;
    with realwidth = 100 and a first timestamp of 50 000 000 ns the floats
    are 0.05, 0.0005 and 2π/100. *)
Theorem toMsg_scan_timing (scans : list ScanOS) (s0 : ScanOS)
    (realwidth timestamp : Z) (frame : string) (mdata : Metadata.t)
    (ring_to_use : Z) :
  scans !! 0%nat = Some s0 →
  0 < realwidth < 2 ^ 32 →
  let dts := f64_mul (f64_of_Z (scan_os.t s0)) (f64_dec 1 9) in
  let two_pi := f64_mul (f64_of_Z 2) M_PI in
  let result := toMsg_scan scans realwidth timestamp frame mdata ring_to_use in
  (is_Some result ↔
     u32 (Metadata.num_lasers mdata * realwidth) ≤ Z.of_nat (length scans)) ∧
  (∀ msg, result = Some msg →
     LaserScan.scan_time msg = f32_of_f64 dts ∧
     LaserScan.time_increment msg = f32_of_f64 (f64_div dts (f64_of_Z realwidth)) ∧
     LaserScan.angle_increment msg =
       f32_of_f64 (f64_div two_pi (f64_of_Z realwidth)) ∧
     LaserScan.angle_min msg = f32_of_Z 0 ∧
     LaserScan.angle_max msg = f32_of_f64 two_pi ∧
     LaserScan.range_min msg = f32_dec 25 3 ∧
     LaserScan.range_max msg = f32_of_Z 20 ∧
     (realwidth = 100 → scan_os.t s0 = 50000000 →
        LaserScan.scan_time msg = f32_dec 5 2 ∧
        LaserScan.time_increment msg = f32_dec 5 4 ∧
        LaserScan.angle_increment msg =
          f32_of_f64 (f64_div two_pi (f64_of_Z 100)))).
Proof.
  intros H0 Hw dts two_pi result. subst result.
  unfold toMsg_scan. rewrite H0. cbn [mbind option_bind].
  set (size := u32 (Metadata.num_lasers mdata * realwidth)).
  pose proof (u32_range (Metadata.num_lasers mdata * realwidth)) as Hsize.
  fold size in Hsize.
  destruct (decide (size ≤ Z.of_nat (length scans))) as [Hcov|Hshort].
  - rewrite push_if_ring_loop_0 by lia. cbn zeta. cbn [mbind option_bind].
    split; [split; [done|by eexists]|].
    intros msg [= <-]. cbn [LaserScan.scan_time LaserScan.time_increment
      LaserScan.angle_increment LaserScan.angle_min LaserScan.angle_max
      LaserScan.range_min LaserScan.range_max].
    fold dts two_pi. split_and!; try reflexivity.
    intros -> Hns. subst dts. rewrite Hns. by split_and!.
  - rewrite push_if_ring_loop_fails by lia. cbn [mbind option_bind].
    split; [|done]. split; [intros [? [=]]|done].
Qed.

Lemma toMsg_scan_timing_example :
  let scans := replicate 100 (sample 5 10 0 50000000) in
  (scans !! 0%nat = Some (sample 5 10 0 50000000) ∧ 0 < 100 < 2 ^ 32) ∧
  ∃ msg, toMsg_scan scans 100 0 "scan" (lasers 1) 0 = Some msg ∧
    LaserScan.scan_time msg = f32_dec 5 2 ∧
    LaserScan.time_increment msg = f32_dec 5 4 ∧
    LaserScan.angle_increment msg =
      f32_of_f64 (f64_div (f64_mul (f64_of_Z 2) M_PI) (f64_of_Z 100)) ∧
    LaserScan.range_min msg = f32_dec 25 3 ∧
    LaserScan.range_max msg = f32_of_Z 20.
Proof.
  intros scans.
  assert (scans !! 0%nat = Some (sample 5 10 0 50000000) ∧ 0 < 100 < 2 ^ 32)
    as Hpre by (split; [reflexivity|lia]).
  split; [exact Hpre|]. destruct Hpre as [H0 Hw].
  destruct (toMsg_scan_timing scans _ 100 0 "scan" (lasers 1) 0 H0 Hw)
    as [Hdef Hfields].
  destruct (proj2 Hdef) as [msg Hmsg]; [vm_compute; discriminate|].
  exists msg. split; [exact Hmsg|].
  destruct (Hfields msg Hmsg) as (_ & _ & _ & _ & _ & Hmin & Hmax & Hex).
  destruct (Hex eq_refl eq_refl) as (Hst & Hti & Hai).
  by split_and!.
Defined.

(** ** Dependence on the input *)

(** C7: the message depends on the first sample and on the first
    [num_lasers × realwidth] samples only: two sequences that agree on their
    first max(1, num_lasers × realwidth) samples give the same outcome. *)
Theorem toMsg_scan_prefix_only (scans1 scans2 : list ScanOS)
    (realwidth timestamp : Z) (frame : string) (mdata : Metadata.t)
    (ring_to_use : Z) :
  let size := Metadata.num_lasers mdata * realwidth in
  0 ≤ size →
  take (Z.to_nat (Z.max 1 size)) scans1 = take (Z.to_nat (Z.max 1 size)) scans2 →
  toMsg_scan scans1 realwidth timestamp frame mdata ring_to_use =
  toMsg_scan scans2 realwidth timestamp frame mdata ring_to_use.
Proof.
  intros size Hsize Hprefix.
  assert (∀ i : nat, (i < Z.to_nat (Z.max 1 size))%nat → scans1 !! i = scans2 !! i)
    as Hsame.
  { intros i Hi.
    rewrite <- (lookup_take_lt scans1 _ i Hi), <- (lookup_take_lt scans2 _ i Hi).
    by rewrite Hprefix. }
  unfold toMsg_scan. rewrite (Hsame 0%nat) by lia.
  destruct (scans2 !! 0%nat) as [s0|]; [|done]. cbn [mbind option_bind].
  fold size. pose proof (u32_le size Hsize) as Hle.
  pose proof (u32_range size) as Hrange.
  rewrite (for_range_ext _ 0 (push_if_ring scans1 ring_to_use)
             (push_if_ring scans2 ring_to_use)); [done|].
  intros i out Hi. unfold push_if_ring. rewrite (Hsame (Z.to_nat i)) by lia. done.
Qed.

Lemma toMsg_scan_prefix_only_example :
  let scans1 := example_scans in
  let scans2 := [sample 5 10 0 100; sample 3 20 1 200; sample 9 99 0 900;
                 sample 1 1 0 1] in
  (0 ≤ Metadata.num_lasers (lasers 2) * 1 ∧
   take (Z.to_nat (Z.max 1 (Metadata.num_lasers (lasers 2) * 1))) scans1 =
   take (Z.to_nat (Z.max 1 (Metadata.num_lasers (lasers 2) * 1))) scans2) ∧
  toMsg_scan scans1 1 0 "scan" (lasers 2) 0 =
  toMsg_scan scans2 1 0 "scan" (lasers 2) 0.
Proof.
  intros scans1 scans2.
  assert (0 ≤ Metadata.num_lasers (lasers 2) * 1 ∧
   take (Z.to_nat (Z.max 1 (Metadata.num_lasers (lasers 2) * 1))) scans1 =
   take (Z.to_nat (Z.max 1 (Metadata.num_lasers (lasers 2) * 1))) scans2)
    as Hpre by (split; [cbn; lia|reflexivity]).
  split; [exact Hpre|]. destruct Hpre as [Hsize Hprefix].
  exact (toMsg_scan_prefix_only scans1 scans2 1 0 "scan" (lasers 2) 0 Hsize Hprefix).
Defined.

(** With no laser the scanned prefix is empty, and two sequences still give
    different messages: the scan time is read from the first sample. *)
Lemma toMsg_scan_reads_first_sample :
  let scans1 := [sample 5 10 0 100] in
  let scans2 := [sample 5 10 0 200] in
  take (Z.to_nat (Metadata.num_lasers (lasers 0) * 1)) scans1 =
  take (Z.to_nat (Metadata.num_lasers (lasers 0) * 1)) scans2 ∧
  LaserScan.scan_time <$> toMsg_scan scans1 1 0 "scan" (lasers 0) 0
    = Some (f32_dec 1 7) ∧
  LaserScan.scan_time <$> toMsg_scan scans2 1 0 "scan" (lasers 0) 0
    = Some (f32_dec 2 7) ∧
  toMsg_scan scans1 1 0 "scan" (lasers 0) 0 ≠
  toMsg_scan scans2 1 0 "scan" (lasers 0) 0.
Proof.
  intros scans1 scans2. split; [reflexivity|].
  split; [vm_compute; reflexivity|]. split; [vm_compute; reflexivity|].
  vm_compute. discriminate.
Qed.

(** ** Degenerate shapes *)

(** C2, at realwidth = 0: the scan conversion divides by a zero resolution,
    so the increments of the message are infinite, or not a number when the
    first timestamp is zero; on the empty sequence it has no first sample to
    read. *)
Theorem toMsg_scan_zero_width :
  let msg := toMsg_scan [sample 5 10 0 100] 0 0 "scan" (lasers 16) 0 in
  let msg0 := toMsg_scan [sample 5 10 0 0] 0 0 "scan" (lasers 16) 0 in
  LaserScan.ranges <$> msg = Some [] ∧
  LaserScan.time_increment <$> msg = Some (S754_infinity false) ∧
  LaserScan.angle_increment <$> msg = Some (S754_infinity false) ∧
  LaserScan.time_increment <$> msg0 = Some S754_nan ∧
  toMsg_scan [] 0 0 "scan" (lasers 16) 0 = None.
Proof. intros msg msg0. split_and!; vm_compute; reflexivity. Qed.

(** ** The record buffer *)

Lemma record_at_lookup (n : Z) (data : list byte) (k : Z) (q : nat) :
  0 ≤ n → 0 ≤ k →
  record_at n data k !! q =
    if decide (q < Z.to_nat n)%nat
    then data !! (Z.to_nat k * Z.to_nat n + q)%nat else None.
Proof.
  intros Hn Hk. unfold record_at.
  rewrite lookup_take, lookup_drop, Z2Nat.inj_mul by lia. done.
Qed.

(** Copying a record into slot [k] of a buffer of [n]-byte records keeps the
    length, puts the record there and leaves every other slot as it was. *)
Lemma memcpy_record (data src : list byte) (n k : Z) :
  0 < n → 0 ≤ k →
  k * n + n ≤ Z.of_nat (length data) →
  Z.of_nat (length src) = n →
  ∃ data', memcpy data (k * n) src n = Some data' ∧
    length data' = length data ∧
    record_at n data' k = src ∧
    ∀ k', 0 ≤ k' → k' ≠ k → record_at n data' k' = record_at n data k'.
Proof.
  intros Hn Hk Hfit Hsrc. unfold memcpy.
  rewrite bool_decide_eq_true_2 by lia. eexists. split; [reflexivity|].
  rewrite take_ge by lia.
  assert (Z.to_nat (k * n) = (Z.to_nat k * Z.to_nat n)%nat) as Hoff
    by (rewrite Z2Nat.inj_mul; lia).
  rewrite Hoff. split_and!.
  - apply length_inserts.
  - apply list_eq. intros q. rewrite record_at_lookup by lia.
    case_decide as Hq.
    + rewrite list_lookup_inserts by nia.
      f_equal. lia.
    + symmetry. apply lookup_ge_None_2. lia.
  - intros k' Hk' Hne. apply list_eq. intros q.
    rewrite !record_at_lookup by lia. case_decide as Hq; [|done].
    destruct (decide (k' < k)).
    + apply list_lookup_inserts_lt. nia.
    + apply list_lookup_inserts_ge. nia.
Qed.

(** A failed bounds check is the only way [memcpy] fails. *)
Lemma memcpy_length (data src data' : list byte) (off n : Z) :
  memcpy data off src n = Some data' → length data' = length data.
Proof.
  unfold memcpy. case_bool_decide; [|done]. intros [= <-]. apply length_inserts.
Qed.

(** ** The transposition *)

Section Transpose.
Context {P : Type} `{PointType P}.
Context (points : list P) (width height : Z).

(** the record index written and the point index read by the iteration
    [(i, j)] of the copy loop *)
Local Abbreviation dst i j := (u32 (u32 (j * width) + i)).
Local Abbreviation src i j := (u32 (u32 (i * height) + j)).

(** One iteration on a buffer of [slots] records. *)
Lemma copy_point_record (slots i j : Z) (p : P) (data : list byte) :
  laid_out P →
  Z.of_nat (length data) = slots * sizeof →
  slots * sizeof < 2 ^ 64 →
  dst i j < slots →
  points !! Z.to_nat (src i j) = Some p →
  ∃ data', copy_point points width height i j data = Some data' ∧
    length data' = length data ∧
    record_at sizeof data' (dst i j) = object_bytes p ∧
    ∀ k, 0 ≤ k → k ≠ dst i j → record_at sizeof data' k = record_at sizeof data k.
Proof.
  intros [Hsz Hobj] Hlen Hfit Hdst Hp.
  pose proof (u32_range (u32 (j * width) + i)) as Hd.
  unfold copy_point. rewrite Hp. cbn [mbind option_bind].
  rewrite u64_small by nia.
  apply memcpy_record; [lia|lia|nia|apply Hobj].
Qed.

(** The invariant rule of the two nested loops: [Inv i j] is what holds
    before the iteration [(i, j)]. *)
Lemma transpose_loop_inv (Inv : Z → Z → list byte → Prop) (data : list byte) :
  0 ≤ width → 0 ≤ height →
  Inv 0 0 data →
  (∀ i j data, 0 ≤ i < width → 0 ≤ j < height → Inv i j data →
     ∃ data', copy_point points width height i j data = Some data' ∧
       Inv i (j + 1) data') →
  (∀ i data, 0 ≤ i < width → Inv i height data → Inv (i + 1) 0 data) →
  ∃ data', transpose_loop points width height data = Some data' ∧
    Inv width 0 data'.
Proof.
  intros Hw Hh H0 Hbody Hnext. unfold transpose_loop.
  destruct (for_range_inv (λ i d, Inv i 0 d) (Z.to_nat width) 0
              (λ i data, for_range (Z.to_nat height) 0
                 (λ j data, copy_point points width height i j data) data) data)
    as (data' & Hrun & Hinv); [done| |].
  - intros i d Hi Hd.
    destruct (for_range_inv (λ j d, Inv i j d) (Z.to_nat height) 0
                (λ j data, copy_point points width height i j data) d)
      as (d' & Hrun & Hinv); [done| |].
    + intros j d' Hj Hd'. apply Hbody; [lia|lia|done].
    + exists d'. split; [done|]. apply Hnext; [lia|].
      by replace (0 + Z.of_nat (Z.to_nat height)) with height in Hinv by lia.
  - exists data'. split; [done|].
    by replace (0 + Z.of_nat (Z.to_nat width)) with width in Hinv by lia.
Qed.

(** Both indices of an iteration stay below [width × height], with or without
    wrap-around. *)
Lemma dst_bound (i j : Z) :
  0 ≤ i < width → 0 ≤ j < height → 0 ≤ dst i j < width * height.
Proof.
  intros Hi Hj.
  pose proof (u32_range (u32 (j * width) + i)) as Hd.
  destruct (decide (width * height ≤ 2 ^ 32)) as [Hsmall|]; [|lia].
  rewrite (u32_small (j * width)) by nia. rewrite u32_small by nia. nia.
Qed.

Lemma src_bound (i j : Z) :
  0 ≤ i < width → 0 ≤ j < height → 0 ≤ src i j < width * height.
Proof.
  intros Hi Hj.
  pose proof (u32_range (u32 (i * height) + j)) as Hd.
  destruct (decide (width * height ≤ 2 ^ 32)) as [Hsmall|]; [|lia].
  rewrite (u32_small (i * height)) by nia. rewrite u32_small by nia. nia.
Qed.

(** Without wrap-around the indices are those of the transposition. *)
Lemma dst_exact (i j : Z) :
  width * height ≤ 2 ^ 32 → 0 ≤ i < width → 0 ≤ j < height →
  dst i j = j * width + i.
Proof.
  intros Hsmall Hi Hj.
  rewrite (u32_small (j * width)) by nia. rewrite u32_small by nia. done.
Qed.

Lemma src_exact (i j : Z) :
  width * height ≤ 2 ^ 32 → 0 ≤ i < width → 0 ≤ j < height →
  src i j = i * height + j.
Proof.
  intros Hsmall Hi Hj.
  rewrite (u32_small (i * height)) by nia. rewrite u32_small by nia. done.
Qed.

(** The copy loop completes on a cloud that holds [width × height] points,
    and keeps the length of the buffer. *)
Lemma transpose_loop_defined (data : list byte) :
  laid_out P →
  0 ≤ width → 0 ≤ height →
  width * height ≤ Z.of_nat (length points) →
  Z.of_nat (length data) = width * height * sizeof →
  width * height * sizeof < 2 ^ 64 →
  ∃ data', transpose_loop points width height data = Some data' ∧
    length data' = length data.
Proof.
  intros Hlaid Hw Hh Hpts Hlen Hfit.
  apply (transpose_loop_inv (λ _ _ d, length d = length data)); [done..| |done].
  intros i j d Hi Hj Hd.
  pose proof (dst_bound i j Hi Hj) as Hdst. pose proof (src_bound i j Hi Hj) as Hsrc.
  destruct (lookup_lt_is_Some_2 points (Z.to_nat (src i j))) as [p Hp]; [lia|].
  destruct (copy_point_record (width * height) i j p d) as (d' & Hrun & Hlen' & _);
    [done|lia|done|lia|done|].
  exists d'. split; [done|congruence].
Qed.

(** The record written by an iteration after which no iteration writes the
    same slot is what the buffer holds there at the end. *)
Lemma transpose_loop_last_writer (data : list byte) (i0 j0 : Z) (p0 : P) :
  laid_out P →
  0 ≤ width → 0 ≤ height →
  width * height ≤ Z.of_nat (length points) →
  Z.of_nat (length data) = width * height * sizeof →
  width * height * sizeof < 2 ^ 64 →
  0 ≤ i0 < width → 0 ≤ j0 < height →
  points !! Z.to_nat (src i0 j0) = Some p0 →
  (∀ i j, 0 ≤ i < width → 0 ≤ j < height →
     i0 < i ∨ (i = i0 ∧ j0 < j) → dst i j ≠ dst i0 j0) →
  ∃ data', transpose_loop points width height data = Some data' ∧
    length data' = length data ∧
    record_at sizeof data' (dst i0 j0) = object_bytes p0.
Proof.
  intros Hlaid Hw Hh Hpts Hlen Hfit Hi0 Hj0 Hp0 Hlast.
  destruct (transpose_loop_inv
              (λ i j d, length d = length data ∧
                 (i0 < i ∨ (i = i0 ∧ j0 < j) →
                  record_at sizeof d (dst i0 j0) = object_bytes p0)) data)
    as (data' & Hrun & Hlen' & Hrec); [done|done|split; [done|lia]| | |].
  - intros i j d Hi Hj [Hd Hkept].
    pose proof (dst_bound i j Hi Hj) as Hdst. pose proof (src_bound i j Hi Hj) as Hsrc.
    destruct (lookup_lt_is_Some_2 points (Z.to_nat (src i j))) as [p Hp]; [lia|].
    destruct (copy_point_record (width * height) i j p d)
      as (d' & Hcopy & Hlen' & Hnew & Hold); [done|lia|done|lia|done|].
    exists d'. split; [done|]. split; [congruence|]. intros Hafter.
    destruct (decide (i = i0 ∧ j = j0)) as [[-> ->]|Hne].
    + rewrite Hnew. congruence.
    + assert (i0 < i ∨ i = i0 ∧ j0 < j) as Hlater by lia.
      rewrite Hold; [by apply Hkept| |by apply not_eq_sym, Hlast].
      pose proof (dst_bound i0 j0 Hi0 Hj0). lia.
  - intros i d Hi [Hd Hkept]. split; [done|]. intros Hafter. apply Hkept. lia.
  - exists data'. split; [done|]. split; [done|]. apply Hrec. lia.
Qed.

End Transpose.

(** ** The point cloud conversion *)

Lemma raw_point_laid_out : laid_out raw_point.
Proof.
  split; [done|]. intros p. cbn [object_bytes raw_point_type sizeof].
  rewrite length_take, length_app, length_replicate. lia.
Qed.

(** A loop keeps what each successful run of its body keeps. *)
Lemma for_range_preserves {S : Type} (Q : S → Prop) (n : nat) (i0 : Z)
    (body : Z → S → option S) (s s' : S) :
  (∀ i s s', body i s = Some s' → Q s → Q s') →
  Q s → for_range n i0 body s = Some s' → Q s'.
Proof.
  intros Hbody. revert i0 s. induction n as [|n IH]; intros i0 s Hs.
  - by intros [= <-].
  - cbn [for_range]. destruct (body i0 s) as [s1|] eqn:Hs1; [|done]. cbn.
    apply IH. by eapply Hbody.
Qed.

Lemma transpose_loop_length {P : Type} `{PointType P} (points : list P)
    (width height : Z) (data data' : list byte) :
  transpose_loop points width height data = Some data' →
  length data' = length data.
Proof.
  unfold transpose_loop.
  apply (for_range_preserves (λ d, length d = length data)); [|done].
  intros i d d' Hrun Hd. revert Hrun.
  apply (for_range_preserves (λ d, length d = length data)); [|done].
  intros j e e' Hcopy He. unfold copy_point in Hcopy.
  destruct (points !! _) as [p|]; [|done]. cbn in Hcopy.
  apply memcpy_length in Hcopy. congruence.
Qed.

(** The message around the transposed buffer. *)
Lemma toMsg_cloud_data {P : Type} `{PointType P} (host : Host.t)
    (cloud : PointCloud.t P) (realwidth timestamp : Z) (frame : string)
    (data' : list byte) :
  let height := PointCloud.height cloud in
  0 < sizeof → 0 < height → 0 < realwidth →
  realwidth * height * sizeof < 2 ^ 64 →
  transpose_loop (PointCloud.points cloud) realwidth height
    (replicate (Z.to_nat (realwidth * height * sizeof)) x00) = Some data' →
  ∃ msg, toMsg_cloud host cloud realwidth timestamp frame = Some msg ∧
    PointCloud2.data msg = data'.
Proof.
  intros height Hsz Hh Hw Hfit Hrun. unfold toMsg_cloud. fold height.
  assert (u64 (u64 (sizeof * realwidth) * height) = realwidth * height * sizeof)
    as ->.
  { rewrite (u64_small (sizeof * realwidth)) by nia. rewrite u64_small by nia. lia. }
  rewrite bool_decide_eq_false_2 by nia. rewrite Hrun. cbn [mbind option_bind].
  by eexists.
Qed.

(** C1: for a cloud of [height > 0] rings that holds [height × realwidth]
    points, with [realwidth > 0] and [height × realwidth ≤ 2^32], the
    conversion returns a message whose record [j × realwidth + i] is the
    unmodified byte image of the point [i × height + j] of the cloud, for
    every column [i < realwidth] and ring [j < height]. *)
Theorem toMsg_cloud_transpose {P : Type} `{PointType P} (host : Host.t)
    (cloud : PointCloud.t P) (realwidth timestamp : Z) (frame : string) :
  laid_out P →
  let height := PointCloud.height cloud in
  0 < height → 0 < realwidth → height * realwidth ≤ 2 ^ 32 →
  height * realwidth ≤ Z.of_nat (length (PointCloud.points cloud)) →
  ∃ msg, toMsg_cloud host cloud realwidth timestamp frame = Some msg ∧
    ∀ i j, 0 ≤ i < realwidth → 0 ≤ j < height →
      ∃ p, PointCloud.points cloud !! Z.to_nat (i * height + j) = Some p ∧
        record_at sizeof (PointCloud2.data msg) (j * realwidth + i) =
          object_bytes p.
Proof.
  intros Hlaid height Hh Hw Hsmall Hpts.
  pose proof Hlaid as [Hsz _].
  set (data0 := replicate (Z.to_nat (realwidth * height * sizeof)) x00).
  assert (Z.of_nat (length data0) = realwidth * height * sizeof) as Hlen0
    by (subst data0; rewrite length_replicate; nia).
  assert (realwidth * height * sizeof < 2 ^ 64) as Hfit by nia.
  destruct (transpose_loop_defined (PointCloud.points cloud) realwidth height data0)
    as (data' & Hrun & _); [done|lia|lia|lia|done|done|].
  destruct (toMsg_cloud_data host cloud realwidth timestamp frame data')
    as (msg & Hmsg & Hdata); [lia|done|done|done|done|].
  exists msg. split; [done|]. intros i j Hi Hj. rewrite Hdata.
  assert (0 ≤ i * height + j < realwidth * height) as Hsrc by nia.
  destruct (lookup_lt_is_Some_2 (PointCloud.points cloud) (Z.to_nat (i * height + j)))
    as [p Hp]; [lia|].
  exists p. split; [done|].
  destruct (transpose_loop_last_writer (PointCloud.points cloud) realwidth height
              data0 i j p) as (data'' & Hrun' & _ & Hrec);
    [done|lia|lia|lia|done|done|done|done| | |].
  - by rewrite (src_exact realwidth height) by lia.
  - intros i' j' Hi' Hj' Hafter. rewrite !(dst_exact realwidth height) by lia.
    intros Heq. assert (j' = j) as -> by nia. lia.
  - rewrite (dst_exact realwidth height) in Hrec by lia. congruence.
Qed.

Lemma toMsg_cloud_transpose_small :
  (laid_out raw_point ∧ 0 < PointCloud.height small_cloud ∧ 0 < 3 ∧
   PointCloud.height small_cloud * 3 ≤ 2 ^ 32 ∧
   PointCloud.height small_cloud * 3 ≤
     Z.of_nat (length (PointCloud.points small_cloud))) ∧
  ∃ msg, toMsg_cloud Host.little_endian small_cloud 3 0 "os1" = Some msg ∧
    record_at 48 (PointCloud2.data msg) (0 * 3 + 1) = object_bytes [x03] ∧
    record_at 48 (PointCloud2.data msg) (1 * 3 + 2) = object_bytes [x06].
Proof.
  assert (laid_out raw_point ∧ 0 < PointCloud.height small_cloud ∧ 0 < 3 ∧
   PointCloud.height small_cloud * 3 ≤ 2 ^ 32 ∧
   PointCloud.height small_cloud * 3 ≤
     Z.of_nat (length (PointCloud.points small_cloud))) as Hpre.
  { split; [apply raw_point_laid_out|]. cbn. lia. }
  split; [exact Hpre|]. destruct Hpre as (Hlaid & Hh & Hw & Hsmall & Hpts).
  destruct (toMsg_cloud_transpose Host.little_endian small_cloud 3 0 "os1"
              Hlaid Hh Hw Hsmall Hpts) as (msg & Hmsg & Hrec).
  exists msg. split; [exact Hmsg|]. split.
  - destruct (Hrec 1 0) as (p & Hp & Hbytes); [lia|cbn; lia|].
    injection Hp as <-. exact Hbytes.
  - destruct (Hrec 2 1) as (p & Hp & Hbytes); [lia|cbn; lia|].
    injection Hp as <-. exact Hbytes.
Defined.

(** The message of the small cloud, ring after ring; the padding column of
    an over-allocated buffer is dropped. *)
Example toMsg_cloud_small_data :
  let rows :=
    object_bytes [x01] ++ object_bytes [x03] ++ object_bytes [x05] ++
    object_bytes [x02] ++ object_bytes [x04] ++ object_bytes [x06] in
  PointCloud2.data <$> toMsg_cloud Host.little_endian small_cloud 3 0 "os1"
    = Some rows ∧
  PointCloud2.data <$> toMsg_cloud Host.little_endian padded_cloud 3 0 "os1"
    = Some rows.
Proof. split; vm_compute; reflexivity. Qed.

(** With 65536 columns no iteration after that of column 0 and ring 65536
    writes record 0: the record index of a later column is not a multiple of
    65536. *)
Lemma later_columns_miss_record_0 (i j : Z) :
  0 ≤ i < 65536 → 0 ≤ j < 65537 → 0 < i ∨ i = 0 ∧ 65536 < j →
  u32 (u32 (j * 65536) + i) ≠ u32 (u32 (65536 * 65536) + 0).
Proof.
  intros Hi Hj Hafter.
  replace (u32 (u32 (65536 * 65536) + 0)) with 0 by reflexivity.
  unfold u32. change (2 ^ 32) with 4294967296.
  Z.to_euclidean_division_equations. lia.
Qed.

(** With 65537 rings and 65536 columns the record index of the last ring
    wraps to that of the first: the iteration of column 0 and ring 65536
    writes record 0 after the iteration of column 0 and ring 0 did, so record
    0 of the message holds point 65536 of the cloud, not point 0. *)
Lemma toMsg_cloud_transpose_wraps :
  (0 < PointCloud.height wide_cloud ∧ 0 < 65536 ∧
   PointCloud.height wide_cloud * 65536 ≤
     Z.of_nat (length (PointCloud.points wide_cloud))) ∧
  PointCloud.points wide_cloud
    !! Z.to_nat (0 * PointCloud.height wide_cloud + 0) = Some point_a ∧
  object_bytes point_b ≠ object_bytes point_a ∧
  ∃ msg, toMsg_cloud Host.little_endian wide_cloud 65536 0 "os1" = Some msg ∧
    record_at sizeof (PointCloud2.data msg) (0 * 65536 + 0) = object_bytes point_b.
Proof.
  assert (Z.of_nat (length (PointCloud.points wide_cloud)) = 65537 * 65536) as Hlen.
  { cbn [PointCloud.points wide_cloud].
    rewrite length_app, !length_replicate. lia. }
  split_and!.
  - cbn [PointCloud.height wide_cloud]. lia.
  - lia.
  - rewrite Hlen. cbn [PointCloud.height wide_cloud]. lia.
  - cbn [PointCloud.points PointCloud.height wide_cloud].
    rewrite lookup_app_l by (rewrite length_replicate; lia).
    apply lookup_replicate_2. lia.
  - vm_compute. discriminate.
  - destruct (transpose_loop_last_writer (PointCloud.points wide_cloud) 65536 65537
                (replicate (Z.to_nat (65536 * 65537 * sizeof)) x00) 0 65536 point_b)
      as (data' & Hrun & _ & Hrec).
    + apply raw_point_laid_out.
    + lia.
    + lia.
    + rewrite Hlen. lia.
    + rewrite length_replicate. cbn [sizeof raw_point_type]. lia.
    + cbn [sizeof raw_point_type]. lia.
    + lia.
    + lia.
    + replace (Z.to_nat (u32 (u32 (0 * 65537) + 65536))) with (Z.to_nat 65536)
        by reflexivity.
      cbn [PointCloud.points wide_cloud].
      rewrite lookup_app_r by (rewrite length_replicate; lia).
      apply lookup_replicate_2. rewrite length_replicate. lia.
    + apply later_columns_miss_record_0.
    + destruct (toMsg_cloud_data Host.little_endian wide_cloud 65536 0 "os1" data')
        as (msg & Hmsg & Hdata).
      * cbn [sizeof raw_point_type]. lia.
      * cbn [PointCloud.height wide_cloud]. lia.
      * lia.
      * cbn [PointCloud.height wide_cloud sizeof raw_point_type]. lia.
      * exact Hrun.
      * exists msg. split; [exact Hmsg|]. rewrite Hdata.
        replace (u32 (u32 (65536 * 65536) + 0)) with (0 * 65536 + 0) in Hrec
          by reflexivity.
        exact Hrec.
Qed.

(** ** The layout fields of the message *)

(** C5: the conversion is defined on every cloud that holds
    [height × realwidth] points, and a message it returns has the width
    [realwidth] as supplied, the height of the cloud, point_step = the size
    of a point, row_step = point_step × realwidth reduced modulo 2^32, the
    dense flag of the cloud, the endianness flag of the probe, and
    point_step × realwidth × height bytes of data reduced modulo 2^64; the
    two products are exact whenever they fit their types. *)
Theorem toMsg_cloud_layout {P : Type} `{PointType P} (host : Host.t)
    (cloud : PointCloud.t P) (realwidth timestamp : Z) (frame : string) :
  laid_out P →
  let height := PointCloud.height cloud in
  0 ≤ height < 2 ^ 32 → 0 ≤ realwidth < 2 ^ 32 →
  let result := toMsg_cloud host cloud realwidth timestamp frame in
  (height * realwidth ≤ Z.of_nat (length (PointCloud.points cloud)) →
   sizeof * realwidth * height < 2 ^ 64 → is_Some result) ∧
  ∀ msg, result = Some msg →
    PointCloud2.width msg = realwidth ∧
    PointCloud2.height msg = height ∧
    PointCloud2.point_step msg = sizeof ∧
    PointCloud2.row_step msg = (sizeof * realwidth) mod 2 ^ 32 ∧
    PointCloud2.is_dense msg = PointCloud.is_dense cloud ∧
    PointCloud2.is_bigendian msg = IS_BIGENDIAN host ∧
    Z.of_nat (length (PointCloud2.data msg)) =
      (sizeof * realwidth * height) mod 2 ^ 64 ∧
    (sizeof * realwidth < 2 ^ 32 →
       PointCloud2.row_step msg = sizeof * realwidth) ∧
    (sizeof * realwidth * height < 2 ^ 64 →
       Z.of_nat (length (PointCloud2.data msg)) = sizeof * realwidth * height).
Proof.
  intros [Hsz Hobj] height Hh Hw result. subst result.
  unfold toMsg_cloud. fold height.
  assert (u64 (sizeof * realwidth) = sizeof * realwidth) as Hrow
    by (apply u64_small; nia).
  rewrite !Hrow.
  set (data_size := u64 (sizeof * realwidth * height)).
  assert (0 ≤ data_size < 2 ^ 64) as Hsize
    by (apply Z.mod_pos_bound; lia).
  split.
  - intros Hpts Hfit.
    assert (data_size = realwidth * height * sizeof) as Hexact
      by (subst data_size; rewrite u64_small by nia; lia).
    case_bool_decide as Hzero; [by eexists|].
    destruct (transpose_loop_defined (PointCloud.points cloud) realwidth height
                (replicate (Z.to_nat data_size) x00)) as (data' & -> & _);
      [done|lia|lia|lia|rewrite length_replicate; lia|lia|].
    by eexists.
  - intros msg Hmsg.
    assert (∃ data', PointCloud2.data msg = data' ∧
              length data' = Z.to_nat data_size ∧
              PointCloud2.width msg = realwidth ∧
              PointCloud2.height msg = height ∧
              PointCloud2.point_step msg = u32 sizeof ∧
              PointCloud2.row_step msg = u32 (sizeof * realwidth) ∧
              PointCloud2.is_dense msg = PointCloud.is_dense cloud ∧
              PointCloud2.is_bigendian msg = IS_BIGENDIAN host)
      as (data' & Hdata & Hlen & Hwidth & Hheight & Hstep & Hrstep & Hdense & Hend).
    { case_bool_decide as Hzero.
      - injection Hmsg as <-. exists (replicate (Z.to_nat data_size) x00).
        split; [reflexivity|]. by rewrite length_replicate.
      - destruct (transpose_loop _ _ _ _) as [data'|] eqn:Hrun; [|done].
        injection Hmsg as <-. exists data'. split; [reflexivity|].
        apply transpose_loop_length in Hrun.
        by rewrite Hrun, length_replicate. }
    rewrite Hdata, Hlen, Hwidth, Hheight, Hstep, Hrstep, Hdense, Hend.
    rewrite (u32_small sizeof) by lia.
    rewrite Z2Nat.id by lia.
    split_and!; try reflexivity.
    + intros Hfit. apply u32_small. nia.
    + intros Hfit. subst data_size. apply u64_small. nia.
Qed.

Lemma toMsg_cloud_layout_small :
  (laid_out raw_point ∧ 0 ≤ PointCloud.height small_cloud < 2 ^ 32 ∧
   0 ≤ 3 < 2 ^ 32) ∧
  ∃ msg, toMsg_cloud Host.little_endian small_cloud 3 0 "os1" = Some msg ∧
    PointCloud2.width msg = 3 ∧
    PointCloud2.height msg = 2 ∧
    PointCloud2.point_step msg = 48 ∧
    PointCloud2.row_step msg = 144 ∧
    PointCloud2.is_dense msg = true ∧
    PointCloud2.is_bigendian msg = false ∧
    Z.of_nat (length (PointCloud2.data msg)) = 288.
Proof.
  assert (laid_out raw_point ∧ 0 ≤ PointCloud.height small_cloud < 2 ^ 32 ∧
          0 ≤ 3 < 2 ^ 32) as Hpre.
  { split; [apply raw_point_laid_out|]. cbn. lia. }
  split; [exact Hpre|]. destruct Hpre as (Hlaid & Hh & Hw).
  destruct (toMsg_cloud_layout Host.little_endian small_cloud 3 0 "os1"
              Hlaid Hh Hw) as [Hdef Hfields].
  destruct Hdef as [msg Hmsg]; [cbn; lia..|].
  exists msg. split; [exact Hmsg|].
  destruct (Hfields msg Hmsg)
    as (Hwidth & Hheight & Hstep & _ & Hdense & Hend & _ & Hrow & Hlen).
  split_and!; [exact Hwidth|exact Hheight|exact Hstep|by apply Hrow|
               exact Hdense|exact Hend|by apply Hlen].
Defined.

(** With 48-byte points and 89 478 486 columns the row stride 4 294 967 328
    does not fit 32 bits and is stored as 32; with 2^31 rings and 2^31
    columns the byte count 48 × 2^62 is a multiple of 2^64, so the buffer is
    allocated with no byte at all. *)
Lemma toMsg_cloud_layout_truncated :
  (sizeof * 89478486 = 4294967328 ∧
   PointCloud2.row_step <$>
     toMsg_cloud Host.little_endian (empty_cloud 0) 89478486 0 "os1" = Some 32) ∧
  (sizeof * 2 ^ 31 * 2 ^ 31 = 48 * 2 ^ 62 ∧
   PointCloud2.data <$>
     toMsg_cloud Host.little_endian (empty_cloud (2 ^ 31)) (2 ^ 31) 0 "os1"
     = Some []).
Proof. split; (split; [reflexivity|vm_compute; reflexivity]). Qed.

(** The part of C2 that holds: with no ring or no column the point cloud
    conversion returns a message without data, whatever the cloud holds. *)
Lemma toMsg_cloud_degenerate {P : Type} `{PointType P} (host : Host.t)
    (cloud : PointCloud.t P) (realwidth timestamp : Z) (frame : string) :
  laid_out P →
  0 ≤ PointCloud.height cloud < 2 ^ 32 → 0 ≤ realwidth < 2 ^ 32 →
  PointCloud.height cloud = 0 ∨ realwidth = 0 →
  ∃ msg, toMsg_cloud host cloud realwidth timestamp frame = Some msg ∧
    PointCloud2.data msg = [] ∧
    PointCloud2.point_step msg = sizeof ∧
    PointCloud2.row_step msg = u32 (sizeof * realwidth).
Proof.
  intros [Hsz _] Hh Hw Hzero. unfold toMsg_cloud.
  assert (u64 (u64 (sizeof * realwidth) * PointCloud.height cloud) = 0) as ->.
  { destruct Hzero as [-> | ->]; [by rewrite Z.mul_0_r|].
    by rewrite Z.mul_0_r. }
  rewrite bool_decide_eq_true_2 by done. cbn [mbind option_bind].
  eexists. split; [reflexivity|]. cbn. split; [done|].
  rewrite (u64_small (sizeof * realwidth)) by nia.
  by rewrite (u32_small sizeof) by lia.
Qed.

(** * Further properties *)

(** ** Client states, metadata and image records *)

(** X1: the five named client states have five different strings, none of
    them "unknown", and every other value of the enumeration is reported as
    "unknown": the string tells the named states apart and nothing else. *)
Theorem toString_names (s1 s2 : ClientState) :
  (toString s1 = toString s2 ↔
     s1 = s2 ∨ ((∃ v, s1 = other_state v) ∧ (∃ v, s2 = other_state v))) ∧
  (toString s1 = "unknown" ↔ ∃ v, s1 = other_state v).
Proof.
  split.
  - split.
    + destruct s1, s2; cbn; intros Heq; try discriminate Heq; eauto.
    + intros [-> | [[v1 ->] [v2 ->]]]; reflexivity.
  - split.
    + destruct s1; cbn; intros Heq; try discriminate Heq; eauto.
    + intros [v ->]. reflexivity.
Qed.

(** X2: the metadata message carries the two addresses and the two ports
    and nothing else: two metadata give the same message exactly when they
    agree on these four members, whatever their laser counts. *)
Theorem toMsg_metadata_forwards (mdata1 mdata2 : Metadata.t) :
  toMsg_metadata mdata1 = toMsg_metadata mdata2 ↔
    Metadata.computer_ip mdata1 = Metadata.computer_ip mdata2 ∧
    Metadata.lidar_ip mdata1 = Metadata.lidar_ip mdata2 ∧
    Metadata.imu_port mdata1 = Metadata.imu_port mdata2 ∧
    Metadata.lidar_port mdata1 = Metadata.lidar_port mdata2.
Proof.
  destruct mdata1, mdata2. unfold toMsg_metadata. cbn. split.
  - intros [= -> -> -> ->]. done.
  - intros (-> & -> & -> & ->). done.
Qed.

(** X3: the image record factory keeps intensity, reflectivity, noise,
    range, ring and column, each in the member of its name although the
    arguments come in another order — every member of the record built reads
    back the argument of the same name — and drops the position and the time:
    two calls build the same record exactly when they agree on the six. *)
Theorem make_keeps_six (x1 y1 z1 x2 y2 z2 intensity1 intensity2 : float)
    (t1 t2 reflectivity1 reflectivity2 ring1 ring2 col1 col2 noise1 noise2
       range1 range2 : Z) :
  (picture_os.intensity
     (picture_os.make x1 y1 z1 intensity1 t1 reflectivity1 ring1 col1 noise1 range1)
     = intensity1 ∧
   picture_os.reflectivity
     (picture_os.make x1 y1 z1 intensity1 t1 reflectivity1 ring1 col1 noise1 range1)
     = reflectivity1 ∧
   picture_os.noise
     (picture_os.make x1 y1 z1 intensity1 t1 reflectivity1 ring1 col1 noise1 range1)
     = noise1 ∧
   picture_os.range
     (picture_os.make x1 y1 z1 intensity1 t1 reflectivity1 ring1 col1 noise1 range1)
     = range1 ∧
   picture_os.ring
     (picture_os.make x1 y1 z1 intensity1 t1 reflectivity1 ring1 col1 noise1 range1)
     = ring1 ∧
   picture_os.col
     (picture_os.make x1 y1 z1 intensity1 t1 reflectivity1 ring1 col1 noise1 range1)
     = col1) ∧
  (picture_os.make x1 y1 z1 intensity1 t1 reflectivity1 ring1 col1 noise1 range1 =
   picture_os.make x2 y2 z2 intensity2 t2 reflectivity2 ring2 col2 noise2 range2 ↔
     intensity1 = intensity2 ∧ reflectivity1 = reflectivity2 ∧
     noise1 = noise2 ∧ range1 = range2 ∧ ring1 = ring2 ∧ col1 = col2).
Proof.
  split; [by repeat split|].
  unfold picture_os.make. split.
  - intros [= -> -> -> -> -> ->]. done.
  - intros (-> & -> & -> & -> & -> & ->). done.
Qed.

(** ** The transform *)

(** X4: the bottom row of the matrix is never read: two matrices of 16
    elements with the same first twelve give the same message, whether or not
    the last four are (0, 0, 0, 1). *)
Theorem toMsg_transform_ignores_bottom_row {Tr : Type}
    (tf2_toMsg : Tf2.Transform → Tr) (mat1 mat2 : list double)
    (frame child_frame : string) (time : rclcpp_Time) :
  length mat1 = 16%nat → length mat2 = 16%nat →
  take 12 mat1 = take 12 mat2 →
  toMsg_transform tf2_toMsg mat1 frame child_frame time =
  toMsg_transform tf2_toMsg mat2 frame child_frame time.
Proof.
  intros Hlen1 Hlen2 Hsame. unfold toMsg_transform.
  rewrite !bool_decide_eq_true_2 by done.
  assert (∀ k : nat, (k < 12)%nat → mat1 !! k = mat2 !! k) as Hk.
  { intros k Hlt.
    rewrite <- (lookup_take_lt mat1 12 k Hlt), <- (lookup_take_lt mat2 12 k Hlt).
    by rewrite Hsame. }
  rewrite !(Hk _) by lia. reflexivity.
Qed.

Lemma toMsg_transform_ignores_bottom_row_example :
  let skewed := take 12 example_matrix ++
                [f64_of_Z 7; f64_of_Z 7; f64_of_Z 7; f64_of_Z 7] in
  (length example_matrix = 16%nat ∧ length skewed = 16%nat ∧
   take 12 example_matrix = take 12 skewed) ∧
  toMsg_transform (λ tf, tf) example_matrix "os1_sensor" "os1_lidar"
    {| nanoseconds := 42 |} =
  toMsg_transform (λ tf, tf) skewed "os1_sensor" "os1_lidar"
    {| nanoseconds := 42 |}.
Proof.
  intros skewed.
  assert (length example_matrix = 16%nat ∧ length skewed = 16%nat ∧
          take 12 example_matrix = take 12 skewed) as Hpre
    by (split_and!; reflexivity).
  split; [exact Hpre|]. destruct Hpre as (Hlen1 & Hlen2 & Hsame).
  exact (toMsg_transform_ignores_bottom_row (λ tf, tf) example_matrix skewed
           "os1_sensor" "os1_lidar" {| nanoseconds := 42 |} Hlen1 Hlen2 Hsame).
Defined.

(** ** The scan *)

(** X5: with realwidth = 0 and any sequence that has a first sample the
    conversion returns a message, scans nothing, and its increments are never
    finite: angle_increment is +infinity and time_increment is infinite or
    not a number, whatever the first timestamp. *)
Theorem toMsg_scan_zero_width_never_finite (scans : list ScanOS) (s0 : ScanOS)
    (timestamp : Z) (frame : string) (mdata : Metadata.t) (ring_to_use : Z) :
  scans !! 0%nat = Some s0 →
  ∃ msg, toMsg_scan scans 0 timestamp frame mdata ring_to_use = Some msg ∧
    LaserScan.ranges msg = [] ∧
    LaserScan.intensities msg = [] ∧
    LaserScan.angle_increment msg = S754_infinity false ∧
    is_finite (LaserScan.time_increment msg) = false.
Proof.
  intros H0. unfold toMsg_scan. rewrite H0. cbn [mbind option_bind].
  rewrite Z.mul_0_r. change (Z.to_nat (u32 0)) with 0%nat. cbn [for_range].
  cbn [mbind option_bind]. eexists. split; [reflexivity|].
  cbn [LaserScan.ranges LaserScan.intensities LaserScan.angle_increment
       LaserScan.time_increment fst snd].
  split_and!; [reflexivity|reflexivity|vm_compute; reflexivity|].
  change (f64_of_Z 0) with (S754_zero false).
  by destruct (f64_mul _ _) as [[]|[]| |[] ? ?].
Qed.

Lemma toMsg_scan_zero_width_never_finite_example :
  example_scans !! 0%nat = Some (sample 5 10 0 100) ∧
  ∃ msg, toMsg_scan example_scans 0 0 "scan" (lasers 16) 0 = Some msg ∧
    LaserScan.ranges msg = [] ∧
    LaserScan.intensities msg = [] ∧
    LaserScan.angle_increment msg = S754_infinity false ∧
    is_finite (LaserScan.time_increment msg) = false.
Proof.
  split; [reflexivity|].
  exact (toMsg_scan_zero_width_never_finite example_scans (sample 5 10 0 100)
           0 "scan" (lasers 16) 0 eq_refl).
Defined.

(** X6: in every message the conversion returns, ranges and intensities
    have the same length, at most the number of samples scanned, which the
    sequence covers. *)
Theorem toMsg_scan_parallel_arrays (scans : list ScanOS)
    (realwidth timestamp : Z) (frame : string) (mdata : Metadata.t)
    (ring_to_use : Z) (msg : LaserScan.t) :
  toMsg_scan scans realwidth timestamp frame mdata ring_to_use = Some msg →
  length (LaserScan.ranges msg) = length (LaserScan.intensities msg) ∧
  Z.of_nat (length (LaserScan.ranges msg))
    ≤ u32 (Metadata.num_lasers mdata * realwidth)
    ≤ Z.of_nat (length scans).
Proof.
  unfold toMsg_scan. destruct (scans !! 0%nat) as [s0|]; [|done].
  cbn [mbind option_bind].
  set (size := u32 (Metadata.num_lasers mdata * realwidth)).
  pose proof (u32_range (Metadata.num_lasers mdata * realwidth)) as Hsize.
  fold size in Hsize.
  destruct (decide (size ≤ Z.of_nat (length scans))) as [Hcov|Hshort].
  - rewrite push_if_ring_loop_0 by lia. cbn zeta. cbn [mbind option_bind].
    intros [= <-]. cbn [LaserScan.ranges LaserScan.intensities fst snd].
    rewrite !length_fmap. split; [done|]. split; [|done].
    pose proof (length_filter (λ s, scan_os.ring s = ring_to_use)
                  (take (Z.to_nat size) scans)) as Hle.
    rewrite length_take in Hle. lia.
  - by rewrite push_if_ring_loop_fails by lia.
Qed.

Lemma toMsg_scan_parallel_arrays_example :
  ∃ msg, toMsg_scan example_scans 1 0 "scan" (lasers 3) 0 = Some msg ∧
    length (LaserScan.ranges msg) = length (LaserScan.intensities msg) ∧
    Z.of_nat (length (LaserScan.ranges msg))
      ≤ u32 (Metadata.num_lasers (lasers 3) * 1)
      ≤ Z.of_nat (length example_scans).
Proof.
  destruct (toMsg_scan example_scans 1 0 "scan" (lasers 3) 0) as [msg|] eqn:Hmsg;
    [|vm_compute in Hmsg; discriminate Hmsg].
  exists msg. split; [reflexivity|].
  exact (toMsg_scan_parallel_arrays example_scans 1 0 "scan" (lasers 3) 0 msg Hmsg).
Defined.

(** X7: scanning more lasers only appends: for two laser counts whose
    sample counts [num_lasers × realwidth] are below 2^32 and covered by the
    sequence, the ranges and intensities for the smaller count are a prefix
    of those for the larger, and the timing fields are the same. *)
Theorem toMsg_scan_more_lasers (scans : list ScanOS) (realwidth timestamp : Z)
    (frame : string) (mdata1 mdata2 : Metadata.t) (ring_to_use : Z) :
  let size1 := Metadata.num_lasers mdata1 * realwidth in
  let size2 := Metadata.num_lasers mdata2 * realwidth in
  scans ≠ [] → 0 ≤ size1 ≤ size2 → size2 < 2 ^ 32 →
  size2 ≤ Z.of_nat (length scans) →
  ∃ msg1 msg2,
    toMsg_scan scans realwidth timestamp frame mdata1 ring_to_use = Some msg1 ∧
    toMsg_scan scans realwidth timestamp frame mdata2 ring_to_use = Some msg2 ∧
    LaserScan.ranges msg1 `prefix_of` LaserScan.ranges msg2 ∧
    LaserScan.intensities msg1 `prefix_of` LaserScan.intensities msg2 ∧
    LaserScan.scan_time msg1 = LaserScan.scan_time msg2 ∧
    LaserScan.time_increment msg1 = LaserScan.time_increment msg2 ∧
    LaserScan.angle_increment msg1 = LaserScan.angle_increment msg2.
Proof.
  intros size1 size2 Hne Hsizes Hfit Hcov.
  assert (∃ s0, scans !! 0%nat = Some s0) as [s0 H0].
  { destruct scans; [done|]. by eexists. }
  unfold toMsg_scan. rewrite H0. cbn [mbind option_bind].
  fold size1 size2. rewrite (u32_small size1), (u32_small size2) by lia.
  rewrite !push_if_ring_loop_0 by lia. cbn zeta. cbn [mbind option_bind].
  eexists _, _. split; [reflexivity|]. split; [reflexivity|].
  cbn [LaserScan.ranges LaserScan.intensities LaserScan.scan_time
       LaserScan.time_increment LaserScan.angle_increment fst snd].
  assert (take (Z.to_nat size2) scans =
          take (Z.to_nat size1) scans ++
          take (Z.to_nat size2 - Z.to_nat size1) (drop (Z.to_nat size1) scans))
    as ->.
  { rewrite take_take_drop. f_equal. lia. }
  rewrite filter_app, !fmap_app.
  split_and!; try reflexivity; by apply prefix_app_r.
Qed.

Lemma toMsg_scan_more_lasers_example :
  (example_scans ≠ [] ∧
   0 ≤ Metadata.num_lasers (lasers 2) * 1 ≤ Metadata.num_lasers (lasers 3) * 1 ∧
   Metadata.num_lasers (lasers 3) * 1 < 2 ^ 32 ∧
   Metadata.num_lasers (lasers 3) * 1 ≤ Z.of_nat (length example_scans)) ∧
  ∃ msg1 msg2,
    toMsg_scan example_scans 1 0 "scan" (lasers 2) 0 = Some msg1 ∧
    toMsg_scan example_scans 1 0 "scan" (lasers 3) 0 = Some msg2 ∧
    LaserScan.ranges msg1 `prefix_of` LaserScan.ranges msg2 ∧
    LaserScan.intensities msg1 `prefix_of` LaserScan.intensities msg2.
Proof.
  assert (example_scans ≠ [] ∧
   0 ≤ Metadata.num_lasers (lasers 2) * 1 ≤ Metadata.num_lasers (lasers 3) * 1 ∧
   Metadata.num_lasers (lasers 3) * 1 < 2 ^ 32 ∧
   Metadata.num_lasers (lasers 3) * 1 ≤ Z.of_nat (length example_scans)) as Hpre.
  { split; [discriminate|]. cbn. lia. }
  split; [exact Hpre|]. destruct Hpre as (Hne & Hsizes & Hfit & Hcov).
  destruct (toMsg_scan_more_lasers example_scans 1 0 "scan" (lasers 2) (lasers 3) 0
              Hne Hsizes Hfit Hcov)
    as (msg1 & msg2 & H1 & H2 & Hr & Hi & _).
  exists msg1, msg2. by split_and!.
Defined.

(** X8: the number of samples scanned is [num_lasers × realwidth] reduced
    modulo 2^32, whatever the two factors: on a sequence with a first sample
    that covers this count, the ranges and intensities are those of the
    samples of the ring among the first [(num_lasers × realwidth) mod 2^32],
    in their order. *)
Theorem toMsg_scan_wrapped_count (scans : list ScanOS) (s0 : ScanOS)
    (realwidth timestamp : Z) (frame : string) (mdata : Metadata.t)
    (ring_to_use : Z) :
  let count := (Metadata.num_lasers mdata * realwidth) mod 2 ^ 32 in
  scans !! 0%nat = Some s0 →
  count ≤ Z.of_nat (length scans) →
  ∃ msg, toMsg_scan scans realwidth timestamp frame mdata ring_to_use = Some msg ∧
    let kept :=
      filter (λ s, scan_os.ring s = ring_to_use) (take (Z.to_nat count) scans) in
    LaserScan.ranges msg =
      (λ s, f32_of_f64 (f64_mul (f64_of_Z (scan_os.range s)) (f64_dec 1 3))) <$> kept ∧
    LaserScan.intensities msg = scan_os.intensity <$> kept.
Proof.
  intros count H0 Hcov. unfold toMsg_scan. rewrite H0. cbn [mbind option_bind].
  change (u32 (Metadata.num_lasers mdata * realwidth)) with count.
  assert (0 ≤ count) by (apply Z.mod_pos_bound; lia).
  rewrite push_if_ring_loop_0 by lia. cbn zeta. cbn [mbind option_bind].
  eexists. split; [reflexivity|]. by split.
Qed.

Lemma toMsg_scan_wrapped_count_example :
  let scans := [sample 5 10 0 100; sample 7 30 0 300] in
  (scans !! 0%nat = Some (sample 5 10 0 100) ∧
   (Metadata.num_lasers (lasers 641) * 6700417) mod 2 ^ 32
     ≤ Z.of_nat (length scans)) ∧
  ∃ msg, toMsg_scan scans 6700417 0 "scan" (lasers 641) 0 = Some msg ∧
    LaserScan.ranges msg = [f32_dec 5 3] ∧
    LaserScan.intensities msg = [f32_of_Z 10].
Proof.
  intros scans.
  assert (scans !! 0%nat = Some (sample 5 10 0 100) ∧
   (Metadata.num_lasers (lasers 641) * 6700417) mod 2 ^ 32
     ≤ Z.of_nat (length scans)) as Hpre
    by (split; [reflexivity|vm_compute; discriminate]).
  split; [exact Hpre|]. destruct Hpre as [H0 Hcov].
  destruct (toMsg_scan_wrapped_count scans _ 6700417 0 "scan" (lasers 641) 0 H0 Hcov)
    as (msg & Hmsg & Hr & Hi).
  exists msg. split; [exact Hmsg|]. rewrite Hr, Hi.
  split; vm_compute; reflexivity.
Defined.

(** ** The point cloud buffer as a whole *)

(** The content of every record of the message, and the length of the
    buffer. *)
Lemma toMsg_cloud_records {P : Type} `{PointType P} (host : Host.t)
    (cloud : PointCloud.t P) (realwidth timestamp : Z) (frame : string) :
  laid_out P →
  let height := PointCloud.height cloud in
  0 < height → 0 < realwidth → height * realwidth ≤ 2 ^ 32 →
  height * realwidth ≤ Z.of_nat (length (PointCloud.points cloud)) →
  ∃ msg, toMsg_cloud host cloud realwidth timestamp frame = Some msg ∧
    Z.of_nat (length (PointCloud2.data msg)) = realwidth * height * sizeof ∧
    ∀ i j, 0 ≤ i < realwidth → 0 ≤ j < height →
      ∃ p, PointCloud.points cloud !! Z.to_nat (i * height + j) = Some p ∧
        record_at sizeof (PointCloud2.data msg) (j * realwidth + i) =
          object_bytes p.
Proof.
  intros Hlaid height Hh Hw Hsmall Hpts.
  pose proof Hlaid as [Hsz _].
  set (data0 := replicate (Z.to_nat (realwidth * height * sizeof)) x00).
  assert (Z.of_nat (length data0) = realwidth * height * sizeof) as Hlen0
    by (subst data0; rewrite length_replicate; nia).
  assert (realwidth * height * sizeof < 2 ^ 64) as Hfit by nia.
  destruct (transpose_loop_defined (PointCloud.points cloud) realwidth height data0)
    as (data' & Hrun & Hlen'); [done|lia|lia|lia|done|done|].
  destruct (toMsg_cloud_data host cloud realwidth timestamp frame data')
    as (msg & Hmsg & Hdata); [lia|done|done|done|done|].
  exists msg. split; [done|]. rewrite Hdata. split; [congruence|].
  intros i j Hi Hj.
  assert (0 ≤ i * height + j < realwidth * height) as Hsrc by nia.
  destruct (lookup_lt_is_Some_2 (PointCloud.points cloud) (Z.to_nat (i * height + j)))
    as [p Hp]; [lia|].
  exists p. split; [done|].
  destruct (transpose_loop_last_writer (PointCloud.points cloud) realwidth height
              data0 i j p) as (data'' & Hrun' & _ & Hrec);
    [done|lia|lia|lia|done|done|done|done| | |].
  - by rewrite (src_exact realwidth height) by lia.
  - intros i' j' Hi' Hj' Hafter. rewrite !(dst_exact realwidth height) by lia.
    intros Heq. assert (j' = j) as -> by nia. lia.
  - rewrite (dst_exact realwidth height) in Hrec by lia. congruence.
Qed.

(** A record index splits into its column and its ring. *)
Lemma record_index_split (width height k : Z) :
  0 < width → 0 ≤ k < width * height →
  0 ≤ k mod width < width ∧ 0 ≤ k / width < height ∧
  k = (k / width) * width + k mod width.
Proof.
  intros Hw Hk.
  pose proof (Z.mod_pos_bound k width Hw) as Hmod.
  pose proof (Z.div_mod k width) as Hdiv.
  assert (0 ≤ k / width) by (apply Z.div_pos; lia).
  split; [done|]. split; [|lia]. split; [done|]. nia.
Qed.

Lemma source_index_range (width height k : Z) :
  0 < width → 0 ≤ k < width * height →
  0 ≤ source_index width height k < width * height.
Proof.
  intros Hw Hk. unfold source_index.
  destruct (record_index_split width height k Hw Hk) as (Hi & Hj & _). nia.
Qed.

(** The rings of a column are [height] apart from the next column: the pair
    of column and ring is read back from the point index. *)
Lemma transposed_index_unique (height i1 j1 i2 j2 : Z) :
  0 ≤ j1 < height → 0 ≤ j2 < height →
  i1 * height + j1 = i2 * height + j2 → i1 = i2 ∧ j1 = j2.
Proof. intros Hj1 Hj2 Heq. assert (i1 = i2) as -> by nia. lia. Qed.

(** Reading the cloud by [source_index] visits every one of its first
    [width × height] places once. *)
Lemma source_index_permutation (width height : Z) :
  0 < width → 0 < height →
  source_index width height <$> seqZ 0 (width * height) ≡ₚ
  seqZ 0 (width * height).
Proof.
  intros Hw Hh. apply NoDup_Permutation.
  - apply NoDup_fmap_2_strong; [|apply NoDup_seqZ].
    intros k1 k2 Hk1%elem_of_seqZ Hk2%elem_of_seqZ Heq.
    destruct (record_index_split width height k1) as (Hi1 & Hj1 & Hs1); [lia..|].
    destruct (record_index_split width height k2) as (Hi2 & Hj2 & Hs2); [lia..|].
    unfold source_index in Heq.
    apply transposed_index_unique in Heq as [Hi Hj]; [|lia..].
    rewrite Hs1, Hs2, Hi, Hj. done.
  - apply NoDup_seqZ.
  - intros m. rewrite list_elem_of_fmap. setoid_rewrite elem_of_seqZ. split.
    + intros (k & -> & Hk).
      pose proof (source_index_range width height k Hw). lia.
    + intros Hm. exists ((m mod height) * width + m / height).
      assert (0 ≤ m mod height < height) as Hj by (apply Z.mod_pos_bound; lia).
      assert (0 ≤ m / height < width) as Hi.
      { split; [apply Z.div_pos; lia|]. apply Z.div_lt_upper_bound; lia. }
      pose proof (Z.div_mod m height) as Hdiv.
      split; [|nia]. unfold source_index.
      replace ((m mod height * width + m / height) mod width) with (m / height)
        by (rewrite Z.add_comm, Z_mod_plus_full, Z.mod_small; lia).
      replace ((m mod height * width + m / height) / width) with (m mod height)
        by (rewrite Z_div_plus_full_l, Z.div_small; lia).
      lia.
Qed.

(** The [k]-th record of a buffer put together from [n]-byte blocks is the
    [k]-th block. *)
Lemma record_at_join (n : Z) (blocks : list (list byte)) (k : nat)
    (b : list byte) :
  Forall (λ b, Z.of_nat (length b) = n) blocks →
  blocks !! k = Some b →
  record_at n (mjoin blocks) (Z.of_nat k) = b.
Proof.
  intros Hblocks. revert k.
  induction Hblocks as [|b0 blocks Hb0 _ IH]; intros k Hk; [done|].
  unfold record_at. change (mjoin (b0 :: blocks)) with (b0 ++ mjoin blocks).
  destruct k as [|k].
  - injection Hk as <-. cbn [Z.of_nat Z.mul Z.to_nat drop].
    apply take_app_length'. lia.
  - replace (Z.to_nat (Z.of_nat (Datatypes.S k) * n))
      with (length b0 + Z.to_nat (Z.of_nat k * n))%nat by nia.
    rewrite drop_app_add. by apply IH.
Qed.

Lemma length_join_blocks (n : Z) (blocks : list (list byte)) :
  Forall (λ b, Z.of_nat (length b) = n) blocks →
  Z.of_nat (length (mjoin blocks)) = Z.of_nat (length blocks) * n.
Proof.
  induction 1 as [|b0 blocks Hb0 _ IH]; [done|].
  change (mjoin (b0 :: blocks)) with (b0 ++ mjoin blocks).
  rewrite length_app. cbn [length]. lia.
Qed.

(** Two buffers of [count] records of [n] bytes with the same records are
    the same buffer. *)
Lemma records_ext (n count : Z) (data1 data2 : list byte) :
  0 < n →
  Z.of_nat (length data1) = count * n →
  Z.of_nat (length data2) = count * n →
  (∀ k, 0 ≤ k < count → record_at n data1 k = record_at n data2 k) →
  data1 = data2.
Proof.
  intros Hn Hlen1 Hlen2 Hrec. apply list_eq. intros q.
  destruct (decide (Z.of_nat q < count * n)) as [Hq|Hq].
  - pose proof (Z.div_mod (Z.of_nat q) n) as Hdiv.
    pose proof (Z.mod_pos_bound (Z.of_nat q) n Hn) as Hmod.
    assert (0 ≤ Z.of_nat q / n < count) as Hk.
    { split; [apply Z.div_pos; lia|]. apply Z.div_lt_upper_bound; lia. }
    assert (q = (Z.to_nat (Z.of_nat q / n) * Z.to_nat n
                 + Z.to_nat (Z.of_nat q mod n))%nat) as Hsplit by nia.
    pose proof (record_at_lookup n data1 (Z.of_nat q / n)
                  (Z.to_nat (Z.of_nat q mod n))) as H1.
    pose proof (record_at_lookup n data2 (Z.of_nat q / n)
                  (Z.to_nat (Z.of_nat q mod n))) as H2.
    rewrite decide_True in H1, H2 by lia.
    rewrite <- Hsplit in H1, H2. rewrite <- H1, <- H2 by lia.
    by rewrite Hrec.
  - rewrite !lookup_ge_None_2 by lia. done.
Qed.

(** On a cloud that holds [width × height] points the row-major reading is
    defined and lists the point of every record. *)
Lemma row_major_defined {P : Type} (points : list P) (width height : Z) :
  0 < width → 0 < height →
  width * height ≤ Z.of_nat (length points) →
  ∃ ps, row_major points width height = Some ps ∧
    length ps = Z.to_nat (width * height) ∧
    ∀ k, 0 ≤ k < width * height →
      ps !! Z.to_nat k = points !! Z.to_nat (source_index width height k).
Proof.
  intros Hw Hh Hpts. unfold row_major.
  destruct (mapM_is_Some_2
              (λ k, points !! Z.to_nat (source_index width height k))
              (seqZ 0 (width * height))) as [ps Hps].
  { apply Forall_seqZ. intros k Hk. cbn.
    pose proof (source_index_range width height k Hw).
    apply lookup_lt_is_Some_2. lia. }
  exists ps. split; [done|].
  pose proof (length_mapM _ _ _ Hps) as Hlen. rewrite length_seqZ in Hlen.
  split; [done|]. intros k Hk.
  apply mapM_Some_1 in Hps.
  destruct (lookup_lt_is_Some_2 ps (Z.to_nat k)) as [p Hp]; [lia|].
  rewrite Hp. symmetry.
  eapply (Forall2_lookup_lr _ _ _ (Z.to_nat k) k p) in Hps; [done| |done].
  rewrite lookup_seqZ_lt by lia. f_equal. lia.
Qed.

(** A buffer whose records are the images of the row-major reading is their
    concatenation. *)
Lemma data_of_row_major {P : Type} `{PointType P} (points ps : list P)
    (width height : Z) (data : list byte) :
  laid_out P → 0 < width → 0 < height →
  Z.of_nat (length data) = width * height * sizeof →
  length ps = Z.to_nat (width * height) →
  (∀ k, 0 ≤ k < width * height →
     ps !! Z.to_nat k = points !! Z.to_nat (source_index width height k)) →
  (∀ i j, 0 ≤ i < width → 0 ≤ j < height →
     ∃ p, points !! Z.to_nat (i * height + j) = Some p ∧
       record_at sizeof data (j * width + i) = object_bytes p) →
  data = mjoin (object_bytes <$> ps).
Proof.
  intros [Hsz Hobj] Hw Hh Hlen Hps Hrow Hrec.
  assert (Forall (λ b, Z.of_nat (length b) = sizeof) (object_bytes <$> ps))
    as Hblocks.
  { apply Forall_fmap, Forall_forall. intros p _. apply Hobj. }
  apply (records_ext sizeof (width * height)); [lia|done| |].
  - rewrite (length_join_blocks sizeof) by done. rewrite length_fmap. lia.
  - intros k Hk.
    destruct (record_index_split width height k Hw Hk) as (Hi & Hj & Hsplit).
    destruct (Hrec (k mod width) (k / width) Hi Hj) as (p & Hp & Hbytes).
    rewrite <- Hsplit in Hbytes. rewrite Hbytes.
    replace k with (Z.of_nat (Z.to_nat k)) at 1 by lia.
    symmetry. apply record_at_join; [done|].
    rewrite list_lookup_fmap, (Hrow k Hk). unfold source_index. by rewrite Hp.
Qed.

(** X9: for a cloud of [height > 0] rings that holds [height × realwidth]
    points, with [realwidth > 0] and [height × realwidth ≤ 2^32], the data of
    the message is exactly the concatenation of the byte images of the points
    read ring after ring: record [k] holds the point
    [(k mod realwidth) × height + k / realwidth], and there is no byte
    before, between or after these records. *)
Theorem toMsg_cloud_row_major {P : Type} `{PointType P} (host : Host.t)
    (cloud : PointCloud.t P) (realwidth timestamp : Z) (frame : string) :
  laid_out P →
  let height := PointCloud.height cloud in
  0 < height → 0 < realwidth → height * realwidth ≤ 2 ^ 32 →
  height * realwidth ≤ Z.of_nat (length (PointCloud.points cloud)) →
  ∃ msg ps, toMsg_cloud host cloud realwidth timestamp frame = Some msg ∧
    row_major (PointCloud.points cloud) realwidth height = Some ps ∧
    PointCloud2.data msg = mjoin (object_bytes <$> ps).
Proof.
  intros Hlaid height Hh Hw Hsmall Hpts.
  destruct (toMsg_cloud_records host cloud realwidth timestamp frame
              Hlaid Hh Hw Hsmall Hpts) as (msg & Hmsg & Hlen & Hrec).
  destruct (row_major_defined (PointCloud.points cloud) realwidth height)
    as (ps & Hps & Hcount & Hrow); [done|done|lia|].
  exists msg, ps. split; [done|]. split; [done|].
  by apply (data_of_row_major (PointCloud.points cloud) ps realwidth height).
Qed.

Lemma toMsg_cloud_row_major_small :
  (laid_out raw_point ∧ 0 < PointCloud.height small_cloud ∧ 0 < 3 ∧
   PointCloud.height small_cloud * 3 ≤ 2 ^ 32 ∧
   PointCloud.height small_cloud * 3 ≤
     Z.of_nat (length (PointCloud.points small_cloud))) ∧
  ∃ msg, toMsg_cloud Host.little_endian small_cloud 3 0 "os1" = Some msg ∧
    PointCloud2.data msg =
      mjoin (object_bytes <$> [[x01]; [x03]; [x05]; [x02]; [x04]; [x06]]).
Proof.
  assert (laid_out raw_point ∧ 0 < PointCloud.height small_cloud ∧ 0 < 3 ∧
   PointCloud.height small_cloud * 3 ≤ 2 ^ 32 ∧
   PointCloud.height small_cloud * 3 ≤
     Z.of_nat (length (PointCloud.points small_cloud))) as Hpre.
  { split; [apply raw_point_laid_out|]. cbn. lia. }
  split; [exact Hpre|]. destruct Hpre as (Hlaid & Hh & Hw & Hsmall & Hpts).
  destruct (toMsg_cloud_row_major Host.little_endian small_cloud 3 0 "os1"
              Hlaid Hh Hw Hsmall Hpts) as (msg & ps & Hmsg & Hps & Hdata).
  exists msg. split; [exact Hmsg|].
  injection Hps as <-. exact Hdata.
Defined.

(** What [mapM] returns is what [omap] keeps. *)
Lemma mapM_Some_omap {A B : Type} (f : A → option B) (l : list A) (k : list B) :
  mapM f l = Some k → omap f l = k.
Proof.
  intros Hk%mapM_Some_1. induction Hk as [|x y l k Hxy _ IH]; [done|].
  cbn. by rewrite Hxy, IH.
Qed.

Lemma omap_fmap_compose {A B C : Type} (g : B → option C) (f : A → B)
    (l : list A) :
  omap (λ x, g (f x)) l = omap g (f <$> l).
Proof. induction l as [|x l IH]; [done|]. cbn. by rewrite IH. Qed.

(** X10: under the same conditions no point is lost or doubled: the records
    of the message are the byte images of a rearrangement of the first
    [height × realwidth] points of the cloud. *)
Theorem toMsg_cloud_rearranges {P : Type} `{PointType P} (host : Host.t)
    (cloud : PointCloud.t P) (realwidth timestamp : Z) (frame : string) :
  laid_out P →
  let height := PointCloud.height cloud in
  0 < height → 0 < realwidth → height * realwidth ≤ 2 ^ 32 →
  height * realwidth ≤ Z.of_nat (length (PointCloud.points cloud)) →
  ∃ msg ps, toMsg_cloud host cloud realwidth timestamp frame = Some msg ∧
    PointCloud2.data msg = mjoin (object_bytes <$> ps) ∧
    ps ≡ₚ take (Z.to_nat (height * realwidth)) (PointCloud.points cloud).
Proof.
  intros Hlaid height Hh Hw Hsmall Hpts.
  destruct (toMsg_cloud_records host cloud realwidth timestamp frame
              Hlaid Hh Hw Hsmall Hpts) as (msg & Hmsg & Hlen & Hrec).
  destruct (row_major_defined (PointCloud.points cloud) realwidth height)
    as (ps & Hps & Hcount & Hrow); [done|done|lia|].
  exists msg, ps. split; [done|]. split.
  { by apply (data_of_row_major (PointCloud.points cloud) ps realwidth height). }
  set (points := PointCloud.points cloud) in *.
  set (get := λ m : Z, points !! Z.to_nat m).
  apply mapM_Some_omap in Hps. rewrite <- Hps.
  rewrite (omap_fmap_compose get (source_index realwidth height)).
  rewrite source_index_permutation by done.
  replace (height * realwidth) with (realwidth * height) by lia.
  assert (mapM get (seqZ 0 (realwidth * height)) =
          Some (take (Z.to_nat (realwidth * height)) points)) as Htake.
  { apply mapM_Some_2, Forall2_same_length_lookup_2.
    - rewrite length_seqZ, length_take. lia.
    - intros q m p Hm%lookup_seqZ Hp. destruct Hm as [-> Hq].
      apply lookup_take_Some in Hp as [Hp _]. subst get. cbn.
      by rewrite Z.add_0_l, Nat2Z.id. }
  by rewrite (mapM_Some_omap _ _ _ Htake).
Qed.

Lemma toMsg_cloud_rearranges_small :
  (laid_out raw_point ∧ 0 < PointCloud.height small_cloud ∧ 0 < 3 ∧
   PointCloud.height small_cloud * 3 ≤ 2 ^ 32 ∧
   PointCloud.height small_cloud * 3 ≤
     Z.of_nat (length (PointCloud.points small_cloud))) ∧
  ∃ msg ps, toMsg_cloud Host.little_endian small_cloud 3 0 "os1" = Some msg ∧
    PointCloud2.data msg = mjoin (object_bytes <$> ps) ∧
    ps ≡ₚ [[x01]; [x02]; [x03]; [x04]; [x05]; [x06]].
Proof.
  assert (laid_out raw_point ∧ 0 < PointCloud.height small_cloud ∧ 0 < 3 ∧
   PointCloud.height small_cloud * 3 ≤ 2 ^ 32 ∧
   PointCloud.height small_cloud * 3 ≤
     Z.of_nat (length (PointCloud.points small_cloud))) as Hpre.
  { split; [apply raw_point_laid_out|]. cbn. lia. }
  split; [exact Hpre|]. destruct Hpre as (Hlaid & Hh & Hw & Hsmall & Hpts).
  destruct (toMsg_cloud_rearranges Host.little_endian small_cloud 3 0 "os1"
              Hlaid Hh Hw Hsmall Hpts) as (msg & ps & Hmsg & Hdata & Hperm).
  exists msg, ps. split; [exact Hmsg|]. split; [exact Hdata|]. exact Hperm.
Defined.

(** ** What the point cloud conversion reads *)

(** X11: the conversion reads the height, the dense flag and the first
    [realwidth × height] points of the cloud, and nothing else: two clouds
    that agree on these give the same outcome, whatever their width members
    and whatever lies in the buffer behind those points. *)
Theorem toMsg_cloud_reads_prefix_only {P : Type} `{PointType P} (host : Host.t)
    (cloud1 cloud2 : PointCloud.t P) (realwidth timestamp : Z) (frame : string) :
  let height := PointCloud.height cloud1 in
  PointCloud.height cloud2 = height →
  PointCloud.is_dense cloud2 = PointCloud.is_dense cloud1 →
  0 ≤ height → 0 ≤ realwidth →
  take (Z.to_nat (realwidth * height)) (PointCloud.points cloud1) =
  take (Z.to_nat (realwidth * height)) (PointCloud.points cloud2) →
  toMsg_cloud host cloud1 realwidth timestamp frame =
  toMsg_cloud host cloud2 realwidth timestamp frame.
Proof.
  intros height Hheight Hdense Hh Hw Hsame. unfold toMsg_cloud.
  rewrite Hheight, Hdense. fold height.
  assert (∀ data, transpose_loop (PointCloud.points cloud1) realwidth height data =
                  transpose_loop (PointCloud.points cloud2) realwidth height data)
    as Hloop; [|by rewrite Hloop].
  intros data. unfold transpose_loop.
  apply for_range_ext. intros i d Hi.
  apply for_range_ext. intros j e Hj. unfold copy_point.
  pose proof (src_bound realwidth height i j ltac:(lia) ltac:(lia)) as Hsrc.
  set (k := Z.to_nat (u32 (u32 (i * height) + j))) in *.
  assert ((k < Z.to_nat (realwidth * height))%nat) as Hk by (subst k; lia).
  rewrite <- (lookup_take_lt (PointCloud.points cloud1) _ k Hk).
  rewrite <- (lookup_take_lt (PointCloud.points cloud2) _ k Hk).
  by rewrite Hsame.
Qed.

Lemma toMsg_cloud_reads_prefix_only_padded :
  (PointCloud.height padded_cloud = PointCloud.height small_cloud ∧
   PointCloud.is_dense padded_cloud = PointCloud.is_dense small_cloud ∧
   0 ≤ PointCloud.height small_cloud ∧ 0 ≤ 3 ∧
   take (Z.to_nat (3 * PointCloud.height small_cloud)) (PointCloud.points small_cloud) =
   take (Z.to_nat (3 * PointCloud.height small_cloud)) (PointCloud.points padded_cloud)) ∧
  toMsg_cloud Host.little_endian small_cloud 3 0 "os1" =
  toMsg_cloud Host.little_endian padded_cloud 3 0 "os1".
Proof.
  assert (PointCloud.height padded_cloud = PointCloud.height small_cloud ∧
   PointCloud.is_dense padded_cloud = PointCloud.is_dense small_cloud ∧
   0 ≤ PointCloud.height small_cloud ∧ 0 ≤ 3 ∧
   take (Z.to_nat (3 * PointCloud.height small_cloud)) (PointCloud.points small_cloud) =
   take (Z.to_nat (3 * PointCloud.height small_cloud)) (PointCloud.points padded_cloud))
    as Hpre by (split_and!; [reflexivity|reflexivity|cbn; lia|lia|reflexivity]).
  split; [exact Hpre|]. destruct Hpre as (Hheight & Hdense & Hh & Hw & Hsame).
  exact (toMsg_cloud_reads_prefix_only Host.little_endian small_cloud padded_cloud
           3 0 "os1" Hheight Hdense Hh Hw Hsame).
Defined.

(** X12: there is no bounds check: for [height × realwidth ≤ 2^32] the
    conversion is defined exactly when the cloud holds [height × realwidth]
    points; on a shorter cloud the copy loop reads past its end. *)
Theorem toMsg_cloud_defined_iff {P : Type} `{PointType P} (host : Host.t)
    (cloud : PointCloud.t P) (realwidth timestamp : Z) (frame : string) :
  laid_out P →
  let height := PointCloud.height cloud in
  0 ≤ height < 2 ^ 32 → 0 ≤ realwidth < 2 ^ 32 → height * realwidth ≤ 2 ^ 32 →
  (is_Some (toMsg_cloud host cloud realwidth timestamp frame) ↔
   height * realwidth ≤ Z.of_nat (length (PointCloud.points cloud))).
Proof.
  intros Hlaid height Hh Hw Hsmall. pose proof Hlaid as [Hsz _].
  unfold toMsg_cloud. fold height.
  assert (u64 (u64 (sizeof * realwidth) * height) = realwidth * height * sizeof)
    as ->.
  { rewrite (u64_small (sizeof * realwidth)) by nia. rewrite u64_small by nia. ring. }
  case_bool_decide as Hzero.
  { cbn [mbind option_bind]. split; [intros _; nia|by eexists]. }
  assert (0 < height ∧ 0 < realwidth) as [Hh' Hw'] by nia.
  split.
  - intros Hsome.
    destruct (decide (height * realwidth ≤ Z.of_nat (length (PointCloud.points cloud))))
      as [|Hshort]; [done|exfalso].
    unfold transpose_loop in Hsome.
    rewrite (for_range_fails _ 0 (realwidth - 1)) in Hsome;
      [by destruct Hsome|lia|].
    intros data. apply (for_range_fails _ 0 (height - 1)); [lia|].
    intros data'. unfold copy_point.
    rewrite (src_exact realwidth height) by lia.
    rewrite lookup_ge_None_2 by nia. done.
  - intros Hpts.
    destruct (transpose_loop_defined (PointCloud.points cloud) realwidth height
                (replicate (Z.to_nat (realwidth * height * sizeof)) x00))
      as (data' & -> & _); [done|lia|lia|lia|rewrite length_replicate; nia|nia|].
    by eexists.
Qed.

Lemma toMsg_cloud_defined_iff_small :
  (laid_out raw_point ∧ 0 ≤ PointCloud.height small_cloud < 2 ^ 32 ∧
   0 ≤ 4 < 2 ^ 32 ∧ PointCloud.height small_cloud * 4 ≤ 2 ^ 32) ∧
  ¬ (PointCloud.height small_cloud * 4 ≤
       Z.of_nat (length (PointCloud.points small_cloud))) ∧
  toMsg_cloud Host.little_endian small_cloud 4 0 "os1" = None.
Proof.
  assert (laid_out raw_point ∧ 0 ≤ PointCloud.height small_cloud < 2 ^ 32 ∧
          0 ≤ 4 < 2 ^ 32 ∧ PointCloud.height small_cloud * 4 ≤ 2 ^ 32) as Hpre.
  { split; [apply raw_point_laid_out|]. cbn. lia. }
  split; [exact Hpre|]. destruct Hpre as (Hlaid & Hh & Hw & Hsmall).
  assert (¬ (PointCloud.height small_cloud * 4 ≤
               Z.of_nat (length (PointCloud.points small_cloud)))) as Hshort
    by (cbn; lia).
  split; [exact Hshort|].
  destruct (toMsg_cloud_defined_iff Host.little_endian small_cloud 4 0 "os1"
              Hlaid Hh Hw Hsmall) as [Hdef _].
  destruct (toMsg_cloud Host.little_endian small_cloud 4 0 "os1") as [msg|];
    [|reflexivity].
  destruct Hshort. apply Hdef. by eexists.
Defined.

(** X13: with no ring or no column the conversion reads no point and
    returns the message without data, whatever the cloud holds: the guard
    [if (data_size)] skips the copy loop. *)
Theorem toMsg_cloud_without_shape {P : Type} `{PointType P} (host : Host.t)
    (cloud : PointCloud.t P) (realwidth timestamp : Z) (frame : string) :
  laid_out P →
  let height := PointCloud.height cloud in
  0 ≤ height < 2 ^ 32 → 0 ≤ realwidth < 2 ^ 32 →
  height = 0 ∨ realwidth = 0 →
  toMsg_cloud host cloud realwidth timestamp frame =
    Some {| PointCloud2.header :=
              {| stamp := {| nanoseconds := timestamp |}; frame_id := frame |};
            PointCloud2.height := height;
            PointCloud2.width := realwidth;
            PointCloud2.fields := fieldList;
            PointCloud2.is_bigendian := IS_BIGENDIAN host;
            PointCloud2.point_step := sizeof;
            PointCloud2.row_step := (sizeof * realwidth) mod 2 ^ 32;
            PointCloud2.data := [];
            PointCloud2.is_dense := PointCloud.is_dense cloud |}.
Proof.
  intros [Hsz _] height Hh Hw Hzero. unfold toMsg_cloud. fold height.
  assert (u64 (u64 (sizeof * realwidth) * height) = 0) as ->.
  { destruct Hzero as [-> | ->]; by rewrite Z.mul_0_r. }
  rewrite bool_decide_eq_true_2 by done. cbn [mbind option_bind].
  rewrite (u64_small (sizeof * realwidth)) by nia.
  by rewrite (u32_small sizeof) by lia.
Qed.

Lemma toMsg_cloud_without_shape_small :
  (laid_out raw_point ∧ 0 ≤ PointCloud.height small_cloud < 2 ^ 32 ∧
   0 ≤ 0 < 2 ^ 32 ∧ (PointCloud.height small_cloud = 0 ∨ 0 = 0)) ∧
  PointCloud2.data <$> toMsg_cloud Host.little_endian small_cloud 0 0 "os1"
    = Some [].
Proof.
  assert (laid_out raw_point ∧ 0 ≤ PointCloud.height small_cloud < 2 ^ 32 ∧
          0 ≤ 0 < 2 ^ 32 ∧ (PointCloud.height small_cloud = 0 ∨ 0 = 0)) as Hpre.
  { split; [apply raw_point_laid_out|]. cbn. lia. }
  split; [exact Hpre|]. destruct Hpre as (Hlaid & Hh & Hw & Hzero).
  by rewrite (toMsg_cloud_without_shape Host.little_endian small_cloud 0 0 "os1"
                Hlaid Hh Hw Hzero).
Defined.

(** X14: a narrower realwidth drops the columns behind it and moves no
    other: for [0 < w1 ≤ w2] with [height × w2 ≤ 2^32] points in the cloud,
    the record of column [i < w1] and ring [j] is the same in both messages,
    at [j × w1 + i] in the one and at [j × w2 + i] in the other. *)
Theorem toMsg_cloud_narrower {P : Type} `{PointType P} (host : Host.t)
    (cloud : PointCloud.t P) (w1 w2 timestamp : Z) (frame : string) :
  laid_out P →
  let height := PointCloud.height cloud in
  0 < height → 0 < w1 ≤ w2 → height * w2 ≤ 2 ^ 32 →
  height * w2 ≤ Z.of_nat (length (PointCloud.points cloud)) →
  ∃ msg1 msg2,
    toMsg_cloud host cloud w1 timestamp frame = Some msg1 ∧
    toMsg_cloud host cloud w2 timestamp frame = Some msg2 ∧
    ∀ i j, 0 ≤ i < w1 → 0 ≤ j < height →
      record_at sizeof (PointCloud2.data msg1) (j * w1 + i) =
      record_at sizeof (PointCloud2.data msg2) (j * w2 + i).
Proof.
  intros Hlaid height Hh Hw Hsmall Hpts.
  destruct (toMsg_cloud_records host cloud w1 timestamp frame Hlaid)
    as (msg1 & Hmsg1 & _ & Hrec1); [done|lia|fold height; nia|fold height; nia|].
  destruct (toMsg_cloud_records host cloud w2 timestamp frame Hlaid)
    as (msg2 & Hmsg2 & _ & Hrec2); [done|lia|done|done|].
  exists msg1, msg2. split; [done|]. split; [done|]. intros i j Hi Hj.
  destruct (Hrec1 i j) as (p1 & Hp1 & ->); [done..|].
  destruct (Hrec2 i j) as (p2 & Hp2 & ->); [lia|done|].
  congruence.
Qed.

Lemma toMsg_cloud_narrower_small :
  (laid_out raw_point ∧ 0 < PointCloud.height small_cloud ∧ 0 < 2 ≤ 3 ∧
   PointCloud.height small_cloud * 3 ≤ 2 ^ 32 ∧
   PointCloud.height small_cloud * 3 ≤
     Z.of_nat (length (PointCloud.points small_cloud))) ∧
  ∃ msg1 msg2,
    toMsg_cloud Host.little_endian small_cloud 2 0 "os1" = Some msg1 ∧
    toMsg_cloud Host.little_endian small_cloud 3 0 "os1" = Some msg2 ∧
    record_at 48 (PointCloud2.data msg1) (1 * 2 + 1) =
    record_at 48 (PointCloud2.data msg2) (1 * 3 + 1).
Proof.
  assert (laid_out raw_point ∧ 0 < PointCloud.height small_cloud ∧ 0 < 2 ≤ 3 ∧
   PointCloud.height small_cloud * 3 ≤ 2 ^ 32 ∧
   PointCloud.height small_cloud * 3 ≤
     Z.of_nat (length (PointCloud.points small_cloud))) as Hpre.
  { split; [apply raw_point_laid_out|]. cbn. lia. }
  split; [exact Hpre|]. destruct Hpre as (Hlaid & Hh & Hw & Hsmall & Hpts).
  destruct (toMsg_cloud_narrower Host.little_endian small_cloud 2 3 0 "os1"
              Hlaid Hh Hw Hsmall Hpts) as (msg1 & msg2 & Hmsg1 & Hmsg2 & Hrec).
  exists msg1, msg2. split; [exact Hmsg1|]. split; [exact Hmsg2|].
  apply (Hrec 1 1); cbn; lia.
Defined.
